(** * indra_db managers: knowledge-base ingestion and readonly snapshot refresh

    A shallow embedding of
      - [indra_db/managers/knowledgebase_manager.py]
        ([KnowledgebaseManager.upload], [update], [_check_reference],
        [_expanded], the filter of [PathwayCommonsManager], the loop of
        [CTDManager], the script), and
      - [indra_db/managers/readonly_manager.py]
        ([uncamel], [get_lambda_client], [ReadonlyTransferEnv], [main]),
    together with the properties their design document states about them.

    Python code that raises and mutates is embedded in a state-and-exception
    monad: a computation takes the current state and gives back an outcome
    (a returned value or a raised exception) together with the state at that
    point, so the effects performed before an exception stay visible. *)

From Stdlib Require Import ZArith Lia Ascii.
From stdpp Require Import base decidable option list strings gmap.

Local Open Scope string_scope.
Local Open Scope list_scope.
Local Open Scope nat_scope.

(** ** Python effects *)

Module Python.

(** The exceptions the two modules can raise. [ExternalError] stands for
    whatever an external collaborator (store, adapter, AWS) raises. *)
Inductive exn : Type :=
| ValueError (msg : string)
| IndexError
| TypeError
| AttributeError (attr : string)
| InvalidStatement
| NotImplementedError
| ExternalError (what : string).

Inductive outcome (A : Type) : Type :=
| Returned (a : A)
| Raised (e : exn).
Arguments Returned {A} a.
Arguments Raised {A} e.

Definition Py (S A : Type) : Type := S -> outcome A * S.

Definition ret {S A} (a : A) : Py S A := fun s => (Returned a, s).

Definition raise {S A} (e : exn) : Py S A := fun s => (Raised e, s).

Definition bind {S A B} (c : Py S A) (k : A -> Py S B) : Py S B :=
  fun s =>
    match c s with
    | (Returned a, s') => k a s'
    | (Raised e, s') => (Raised e, s')
    end.

Definition gets {S A} (f : S -> A) : Py S A := fun s => (Returned (f s), s).

Definition modify {S} (f : S -> S) : Py S unit := fun s => (Returned tt, f s).

(** Lifting of a pure computation that may raise. *)
Definition lift {S A} (o : outcome A) : Py S A := fun s => (o, s).

End Python.

Import Python.

Global Instance Py_ret {S} : MRet (Py S) := fun A a => ret a.
Global Instance Py_bind {S} : MBind (Py S) := fun A B k c => bind c k.

(** ** INDRA statements

  The statement object model belongs to the INDRA library. Only what the
  managers touch is represented: the type and agents (the content), the
  evidence list, and the identity of the object. *)

Module Indra.

Record Evidence : Type := mkEvidence {
  source_id : string;
  source_sub_id : string;
  pmid : string
}.

Record Statement : Type := mkStatement {
  stmt_type : string;
  agents : list string;
  evidence : list Evidence;
  uuid : string
}.

(** [new_stmt.evidence.append(ev)] *)
Definition evidence_append (stmt : Statement) (ev : Evidence) : Statement :=
  {| stmt_type := stmt_type stmt;
     agents := agents stmt;
     evidence := evidence stmt ++ [ev];
     uuid := uuid stmt |}.

(** The functions of the INDRA library the managers call. They are not part
    of this repository; they are taken as an interface.
    [make_generic_copy] is specified as the design document describes it:
    same type and agents, evidence list cleared. [valid_statement] says
    whether [assert_valid_statement] returns rather than raises. *)
Class Library : Type := {
  get_hash : Statement -> Z;
  get_source_hash : Evidence -> Z;
  valid_statement : Statement -> bool;
  make_generic_copy : Statement -> Statement;
  make_generic_copy_type :
    forall stmt, stmt_type (make_generic_copy stmt) = stmt_type stmt;
  make_generic_copy_agents :
    forall stmt, agents (make_generic_copy stmt) = agents stmt;
  make_generic_copy_evidence :
    forall stmt, evidence (make_generic_copy stmt) = []
}.

(** A reference instance, used to run the definitions on concrete inputs:
    hashes are lengths (content hash from type and agents only), a statement
    is valid when it has a type, a generic copy has a blank identity. *)
Definition ref_get_hash (stmt : Statement) : Z :=
  Z.of_nat (String.length (stmt_type stmt))
  + 31 * Z.of_nat (sum_list_with String.length (agents stmt)).

Definition ref_get_source_hash (ev : Evidence) : Z :=
  Z.of_nat (String.length (source_id ev))
  + 31 * Z.of_nat (String.length (pmid ev)).

Definition ref_valid_statement (stmt : Statement) : bool :=
  negb (String.eqb (stmt_type stmt) EmptyString).

Definition ref_make_generic_copy (stmt : Statement) : Statement :=
  {| stmt_type := stmt_type stmt;
     agents := agents stmt;
     evidence := [];
     uuid := EmptyString |}.

Definition reference : Library :=
  {| get_hash := ref_get_hash;
     get_source_hash := ref_get_source_hash;
     valid_statement := ref_valid_statement;
     make_generic_copy := ref_make_generic_copy;
     make_generic_copy_type := fun _ => eq_refl;
     make_generic_copy_agents := fun _ => eq_refl;
     make_generic_copy_evidence := fun _ => eq_refl |}.

End Indra.

Import Indra.

(** ** Evidence expansion: [_expanded] *)

Section Expander.
Context `{Library}.

(** The inner loop [for ev in stmt.evidence]: one generic copy per evidence,
    the evidence appended to the copy's (empty) evidence list. *)
Fixpoint expanded_copies (stmt : Statement) (evs : list Evidence)
  : list Statement :=
  match evs with
  | [] => []
  | ev :: evs' =>
      let new_stmt := make_generic_copy stmt in
      evidence_append new_stmt ev :: expanded_copies stmt evs'
  end.

(** The generator [_expanded], as the list of what it yields. *)
Fixpoint _expanded (stmts : list Statement) : list Statement :=
  match stmts with
  | [] => []
  | stmt :: rest =>
      (if (1 <? length (evidence stmt))%nat
       then expanded_copies stmt (evidence stmt)
       else [stmt])
      ++ _expanded rest
  end.

End Expander.

(** ** The store as the knowledge-base managers see it *)

(** Rows of the [db_info] table ([db.DBInfo]). *)
Module DBInfo.
Record row : Type := mk {
  id : Z;
  db_name : string;
  source_api : string;
  db_full_name : string
}.
End DBInfo.

(** Rows of the [raw_statements] table ([db.RawStatements]), restricted to the
    columns the managers read. [db_info_id] holds what the caller passed as
    the registration identifier, which in Python may be [None]. *)
Module RawStatements.
Record row : Type := mk {
  mk_hash : Z;
  source_hash : Z;
  db_info_id : option Z
}.
End RawStatements.

(** What a manager did to the store and to its adapter, in order. *)
Inductive action : Type :=
| DidSelectOne (short_name : string)
| DidInsert (r : DBInfo.row)
| DidCommit (msg : string)
| DidSelectAll (dbid : Z)
| DidGetStatements
| DidInsertDbStmts (dbid : option Z) (n_stmts : nat).

Record DB : Type := mkDB {
  db_info : list DBInfo.row;
  raw_statements : list RawStatements.row;
  next_id : Z;
  journal : list action
}.

Definition record (a : action) : Py DB unit :=
  modify (fun db =>
    {| db_info := db_info db;
       raw_statements := raw_statements db;
       next_id := next_id db;
       journal := journal db ++ [a] |}).

(** Modelled from the spec: [db.select_one(db.DBInfo, db.DBInfo.db_name == n)]
    of the store's query layer ([indra_db.databases]), which lies outside
    the two manager modules; the
    store interface gives [select_one(predicate) -> row]. It yields the first
    row with that name, or [None]. *)
Definition select_one (n : string) : Py DB (option DBInfo.row) :=
  record (DidSelectOne n);;
  gets (fun db => find (fun r => String.eqb (DBInfo.db_name r) n) (db_info db)).

(** Modelled from the spec: [db.insert(db.DBInfo, **fields) -> id]. The new
    row gets the next identifier of the table. *)
Definition insert (n src full : string) : Py DB Z :=
  i ← gets next_id;
  let r := DBInfo.mk i n src full in
  modify (fun db =>
    {| db_info := db_info db ++ [r];
       raw_statements := raw_statements db;
       next_id := i + 1;
       journal := journal db |});;
  record (DidInsert r);;
  mret i.

(** [dbinfo.source_api = src], where [dbinfo] is the object [select_one] gave
    for the name [n]: the first row of that name is overwritten. *)
Fixpoint overwrite_source_api (n src : string) (rows : list DBInfo.row)
  : list DBInfo.row :=
  match rows with
  | [] => []
  | r :: rows' =>
      if String.eqb (DBInfo.db_name r) n
      then DBInfo.mk (DBInfo.id r) (DBInfo.db_name r) src (DBInfo.db_full_name r)
           :: rows'
      else r :: overwrite_source_api n src rows'
  end.

Definition set_source_api (n src : string) : Py DB unit :=
  modify (fun db =>
    {| db_info := overwrite_source_api n src (db_info db);
       raw_statements := raw_statements db;
       next_id := next_id db;
       journal := journal db |}).

(** Modelled from the spec: [db.commit(error_message)]. *)
Definition commit (msg : string) : Py DB unit := record (DidCommit msg).

(** Modelled from the spec: [db.select_all([mk_hash, source_hash],
    db_info_id == dbid)], the pairs persisted under one registration. *)
Definition select_all (dbid : Z) : Py DB (list (Z * Z)) :=
  record (DidSelectAll dbid);;
  gets (fun db =>
    map (fun r => (RawStatements.mk_hash r, RawStatements.source_hash r))
        (filter (fun r => RawStatements.db_info_id r = Some dbid)
                (raw_statements db))).

(** The store's invariant on a batch: every statement carries exactly one
    evidence record. *)
Definition single_evidence (stmts : list Statement) : bool :=
  forallb (fun s => (length (evidence s) =? 1)%nat) stmts.

Section Manager.
Context `{Library}.

(** The key [(s.get_hash(), s.evidence[0].get_source_hash())]; indexing an
    empty evidence list raises [IndexError]. *)
Definition stmt_key (s : Statement) : outcome (Z * Z) :=
  match evidence s with
  | [] => Raised IndexError
  | ev0 :: _ => Returned (get_hash s, get_source_hash ev0)
  end.

(** The rows a statement is persisted as: its content hash paired with the
    source hash of its evidence, under the registration identifier. *)
Definition stmt_rows (dbid : option Z) (s : Statement)
  : list RawStatements.row :=
  map (fun ev => RawStatements.mk (get_hash s) (get_source_hash ev) dbid)
      (evidence s).

(** Modelled from the spec: [insert_db_stmts(db, stmts, dbid)] of
    [indra_db.util], which lies outside the two manager modules. The spec gives
    it as one batch insert keyed by the registration identifier, treated as
    atomic, into a store that requires single-evidence statements; each
    persisted statement contributes its [(content_hash, source_hash)] pair. *)
Definition insert_db_stmts (stmts : list Statement) (dbid : option Z)
  : Py DB unit :=
  record (DidInsertDbStmts dbid (length stmts));;
  if single_evidence stmts
  then
    modify (fun db =>
      {| db_info := db_info db;
         raw_statements := raw_statements db ++ flat_map (stmt_rows dbid) stmts;
         next_id := next_id db;
         journal := journal db |})
  else raise (ExternalError "insert_db_stmts").

(** [assert_valid_statement(stmt)] *)
Definition assert_valid_statement (stmt : Statement) : Py DB unit :=
  if valid_statement stmt then mret tt else raise InvalidStatement.

(** A manager: the three class attributes and the adapter. What
    [_get_statements] does is a matter of the source it reads; here it is
    the outcome of the fetch, a list of statements or an exception. *)
Record KnowledgebaseManager : Type := mkManager {
  name : string;
  short_name : string;
  source : string;
  fetched : outcome (list Statement)
}.

Definition _get_statements (self : KnowledgebaseManager)
  : Py DB (list Statement) :=
  record DidGetStatements;;
  lift (fetched self).

(** [KnowledgebaseManager._check_reference] *)
Definition _check_reference (self : KnowledgebaseManager) (can_create : bool)
  : Py DB (option Z) :=
  dbinfo ← select_one (short_name self);
  match dbinfo with
  | None =>
      if can_create
      then
        dbid ← insert (short_name self) (source self) (name self);
        mret (Some dbid)
      else mret None
  | Some dbinfo =>
      let dbid := DBInfo.id dbinfo in
      (if negb (String.eqb (DBInfo.source_api dbinfo) (source self))
       then
         set_source_api (DBInfo.db_name dbinfo) (source self);;
         commit ("Could not update source_api for " +:+ DBInfo.db_name dbinfo +:+ ".")
       else mret tt);;
      mret (Some dbid)
  end.

(** The loop [for stmt in stmts: assert_valid_statement(stmt)]. *)
Fixpoint validate_all (stmts : list Statement) : Py DB unit :=
  match stmts with
  | [] => mret tt
  | stmt :: rest => assert_valid_statement stmt;; validate_all rest
  end.

(** [KnowledgebaseManager.upload] *)
Definition upload (self : KnowledgebaseManager) : Py DB unit :=
  dbid ← _check_reference self true;
  stmts ← _get_statements self;
  validate_all stmts;;
  insert_db_stmts stmts dbid.

(** The comprehension
    [[s for s in stmts if (s.get_hash(), s.evidence[0].get_source_hash())
      not in existing_keys]], statement by statement. *)
Fixpoint filter_new (existing_keys : gset (Z * Z)) (stmts : list Statement)
  : outcome (list Statement) :=
  match stmts with
  | [] => Returned []
  | s :: rest =>
      match stmt_key s with
      | Raised e => Raised e
      | Returned k =>
          match filter_new existing_keys rest with
          | Raised e => Raised e
          | Returned kept =>
              Returned (if bool_decide (k ∉ existing_keys) then s :: kept else kept)
          end
      end
  end.

(** [KnowledgebaseManager.update] *)
Definition update (self : KnowledgebaseManager) : Py DB unit :=
  dbid ← _check_reference self false;
  match dbid with
  | None =>
      raise (ValueError "This knowledge base has not yet been registered.")
  | Some dbid =>
      rows ← select_all dbid;
      let existing_keys : gset (Z * Z) := list_to_set rows in
      stmts ← _get_statements self;
      filtered_stmts ← lift (filter_new existing_keys stmts);
      insert_db_stmts filtered_stmts (Some dbid)
  end.

End Manager.

(** ** The snapshot refresh cycle: readonly_manager.py *)

(** The places of [main] and of [ReadonlyTransferEnv] where control leaves
    the module: calls into the stores and into AWS. [_set_lambda_env] is
    reached from [__enter__] and from [__exit__]; the phase tells which. *)
Inductive phase : Type := Entering | Exiting.

Inductive site : Type :=
| AtGetDb
| AtGetRo
| AtGetSchemas
| AtDropExisting
| AtGenerateReadonly
| AtDumpReadonly
| AtGetLambdaClient (p : phase)
| AtUpdateConfiguration (p : phase)
| AtLoadDump
| AtSessionClose
| AtGrabSession
| AtDropReadonly.

Global Instance phase_eq_dec : EqDecision phase.
Proof. solve_decision. Defined.

Global Instance site_eq_dec : EqDecision site.
Proof. solve_decision. Defined.

Definition site_name (here : site) : string :=
  match here with
  | AtGetDb => "get_db"
  | AtGetRo => "get_ro"
  | AtGetSchemas => "get_schemas"
  | AtDropExisting | AtDropReadonly => "drop_schema"
  | AtGenerateReadonly => "generate_readonly"
  | AtDumpReadonly => "dump_readonly"
  | AtGetLambdaClient _ => "get_lambda_client"
  | AtUpdateConfiguration _ => "update_function_configuration"
  | AtLoadDump => "load_dump"
  | AtSessionClose => "session.close"
  | AtGrabSession => "grab_session"
  end.

(** What the refresh cycle acts on: the environment variables of the serving
    function, the schemas of the principal database, what the readonly
    database was loaded from, and the external calls made so far. *)
Record World : Type := mkWorld {
  lambda_env : list (string * string);
  schemas : list string;
  loaded : option string;
  trace : list site
}.

(** What the surroundings decide in one run: which external calls raise, the
    names under which the Lambda client object offers the configuration
    update, the URL of the principal database, and the path of the dump. *)
Record Surroundings : Type := mkSurroundings {
  raises : site -> bool;
  configuring_methods : list string;
  principal_url : string;
  dump_path : string
}.

(** An external call: it is traced, then either raises and leaves the world
    as it was, or has its effect and returns. *)
Definition external {A} (o : Surroundings) (here : site)
    (effect : World -> World) (result : World -> A) : Py World A :=
  fun w =>
    let w1 := {| lambda_env := lambda_env w; schemas := schemas w;
                 loaded := loaded w; trace := trace w ++ [here] |} in
    if raises o here
    then (Raised (ExternalError (site_name here)), w1)
    else (Returned (result w1), effect w1).

Definition set_lambda_env_to (env_dict : list (string * string)) (w : World) : World :=
  {| lambda_env := env_dict; schemas := schemas w;
     loaded := loaded w; trace := trace w |}.

Definition set_schemas_to (f : list string -> list string) (w : World) : World :=
  {| lambda_env := lambda_env w; schemas := f (schemas w);
     loaded := loaded w; trace := trace w |}.

Definition set_loaded_to (dump_file : string) (w : World) : World :=
  {| lambda_env := lambda_env w; schemas := schemas w;
     loaded := Some dump_file; trace := trace w |}.

(** Database handles; of the principal one only the URL is read. *)
Record PrincipalDatabase : Type := mkPrincipal { url : string }.
Record ReadonlyDatabase : Type := mkReadonly { ro_name : string }.

(** Modelled from the spec: [get_db] and [get_ro] of [indra_db.util], which
    lie outside the two manager modules, give the handles of the principal
    and of the readonly database. *)
Definition get_db (o : Surroundings) (db_name : string)
  : Py World PrincipalDatabase :=
  external o AtGetDb (fun w => w) (fun _ => mkPrincipal (principal_url o)).

Definition get_ro (o : Surroundings) (ro_name : string)
  : Py World ReadonlyDatabase :=
  external o AtGetRo (fun w => w) (fun _ => mkReadonly ro_name).

(** Modelled from the spec: [get_schemas()], the schema introspection of the
    store interface. *)
Definition get_schemas (o : Surroundings) : Py World (list string) :=
  external o AtGetSchemas (fun w => w) schemas.

(** Modelled from the spec: [drop_schema(name)] of the store interface; the
    schema of that name is gone afterwards. *)
Definition drop_schema (o : Surroundings) (here : site) (schema : string)
  : Py World unit :=
  external o here
    (set_schemas_to (filter (fun n => n ≠ schema))) (fun _ => tt).

(** Modelled from the spec: [generate_readonly(selection, resume_flag)] of
    the store interface derives the ['readonly'] schema on the principal
    database; when it returns, the schema exists. *)
Definition generate_readonly (o : Surroundings)
    (ro_list : option (list string)) (allow_continue : bool) : Py World unit :=
  external o AtGenerateReadonly
    (set_schemas_to (fun l =>
       if bool_decide ("readonly" ∈ l) then l else (l ++ ["readonly"])%list))
    (fun _ => tt).

(** Modelled from the spec: [dump_readonly() -> artifact_path]. *)
Definition dump_readonly (o : Surroundings) : Py World string :=
  external o AtDumpReadonly (fun w => w) (fun _ => dump_path o).

(** Modelled from the spec: [load_dump(artifact_path)] loads the artifact
    into the readonly database. *)
Definition load_dump (o : Surroundings) (dump_file : string) : Py World unit :=
  external o AtLoadDump (set_loaded_to dump_file) (fun _ => tt).

(** [principal_db.session.close()] and [principal_db.grab_session()] *)
Definition session_close (o : Surroundings) : Py World unit :=
  external o AtSessionClose (fun w => w) (fun _ => tt).

Definition grab_session (o : Surroundings) : Py World unit :=
  external o AtGrabSession (fun w => w) (fun _ => tt).

(** [get_lambda_client()]: the STS and role handling is AWS's; it raises or
    gives the client. *)
Definition get_lambda_client (o : Surroundings) (p : phase) : Py World unit :=
  external o (AtGetLambdaClient p) (fun w => w) (fun _ => tt).

(** Attribute lookup on the client followed by the call with
    [Environment={"Variables": env_dict}]: a name the client does not offer
    raises [AttributeError]. *)
Definition client_call (o : Surroundings) (attr : string) (p : phase)
    (env_dict : list (string * string)) : Py World unit :=
  if bool_decide (attr ∈ configuring_methods o)
  then external o (AtUpdateConfiguration p) (set_lambda_env_to env_dict) (fun _ => tt)
  else raise (AttributeError attr).

(** A method as [def] declares it: the number of parameters after [self],
    and the body. Calling it with another number of arguments raises
    [TypeError] before the body runs. *)
Record method (A : Type) : Type := def {
  params : nat;
  code : Py World A
}.
Arguments def {A} params code.
Arguments params {A} m.
Arguments code {A} m.

Definition call {A} (m : method A) (n_args : nat) : Py World A :=
  if (n_args =? params m)%nat then code m else raise TypeError.

(** [class ReadonlyTransferEnv] *)
Record ReadonlyTransferEnv : Type := mkReadonlyTransferEnv {
  principal : PrincipalDatabase;
  readonly : ReadonlyDatabase
}.

(** [ReadonlyTransferEnv._set_lambda_env] *)
Definition _set_lambda_env (o : Surroundings) (p : phase)
    (env_dict : list (string * string)) : Py World unit :=
  get_lambda_client o p;;
  client_call o "update_function_configureation" p env_dict.

(** [def __enter__(self)] *)
Definition __enter__ (o : Surroundings) (self : ReadonlyTransferEnv)
  : method unit :=
  def 0 (_set_lambda_env o Entering [("INDRAROOVERRIDE", url (principal self))]).

(** [def __exit__(self)]; the body returns [None], which is not truthy. *)
Definition __exit__ (o : Surroundings) (self : ReadonlyTransferEnv)
  : method bool :=
  def 0 (_set_lambda_env o Exiting [];; mret false).

(** The [with] statement: [__enter__] is called with no argument; the body
    runs; [__exit__] is called with the three exception arguments (all
    [None] when the body returned). An exception of the body propagates
    unless [__exit__] returns a truthy value; an exception of [__exit__]
    replaces it. *)
Definition with_statement (enter : method unit) (exit : method bool)
    (body : Py World unit) : Py World unit :=
  fun w =>
    match call enter 0 w with
    | (Raised e, w1) => (Raised e, w1)
    | (Returned _, w1) =>
        match body w1 with
        | (Returned _, w2) =>
            match call exit 3 w2 with
            | (Returned _, w3) => (Returned tt, w3)
            | (Raised e', w3) => (Raised e', w3)
            end
        | (Raised e, w2) =>
            match call exit 3 w2 with
            | (Returned true, w3) => (Returned tt, w3)
            | (Returned false, w3) => (Raised e, w3)
            | (Raised e', w3) => (Raised e', w3)
            end
        end
    end.

(** The parsed command line. [m_views] is the string ['all'] by default and
    a list of view names when [-m] is given. *)
Inductive views : Type :=
| DefaultAll
| Views (names : list string).

Record Args : Type := mkArgs {
  database : string;
  readonly_name : string;
  m_views : views;
  allow_continue : bool;
  delete_existing : bool
}.

(** [main], from the parsed arguments on. *)
Definition main (o : Surroundings) (args : Args) : Py World unit :=
  let ro_names :=
    match m_views args with
    | DefaultAll => None
    | Views names => Some names
    end in
  principal_db ← get_db o (database args);
  readonly_db ← get_ro o (readonly_name args);
  existing ← (if delete_existing args
              then l ← get_schemas o; mret (bool_decide ("readonly" ∈ l))
              else mret false);
  (if existing : bool
   then drop_schema o AtDropExisting "readonly"
   else mret tt);;
  generate_readonly o ro_names (allow_continue args);;
  dump_file ← dump_readonly o;
  (let env := mkReadonlyTransferEnv principal_db readonly_db in
   with_statement (__enter__ o env) (__exit__ o env)
     (load_dump o dump_file));;
  session_close o;;
  grab_session o;;
  drop_schema o AtDropReadonly "readonly".

(** ** Vocabulary of the properties *)

(** The store after further actions were journalled, nothing else changed. *)
Definition logged (acts : list action) (db : DB) : DB :=
  {| db_info := db_info db;
     raw_statements := raw_statements db;
     next_id := next_id db;
     journal := journal db ++ acts |}.

(** The store after further rows were persisted, nothing else changed. *)
Definition with_rows (rows : list RawStatements.row) (db : DB) : DB :=
  {| db_info := db_info db;
     raw_statements := raw_statements db ++ rows;
     next_id := next_id db;
     journal := journal db |}.

(** The registration stored under a manager's short name, if any. *)
Definition registration (self : KnowledgebaseManager) (db : DB)
  : option DBInfo.row :=
  find (fun r => String.eqb (DBInfo.db_name r) (short_name self)) (db_info db).

(** A registration row once it carries the manager's source. *)
Definition registered_row (self : KnowledgebaseManager) (r : DBInfo.row)
  : DBInfo.row :=
  DBInfo.mk (DBInfo.id r) (DBInfo.db_name r) (source self) (DBInfo.db_full_name r).

(** The store [_check_reference] leaves behind when it found the row [r]:
    one lookup, and, when the stored source differed, the overwrite and its
    commit. *)
Definition checked (self : KnowledgebaseManager) (r : DBInfo.row) (db : DB) : DB :=
  if String.eqb (DBInfo.source_api r) (source self)
  then logged [DidSelectOne (short_name self)] db
  else {| db_info := overwrite_source_api (DBInfo.db_name r) (source self) (db_info db);
          raw_statements := raw_statements db;
          next_id := next_id db;
          journal := journal db ++
            [DidSelectOne (short_name self);
             DidCommit ("Could not update source_api for " +:+ DBInfo.db_name r +:+ ".")] |}.

(** The [(content_hash, source_hash)] pairs persisted under a registration. *)
Definition persisted_keys (dbid : Z) (db : DB) : gset (Z * Z) :=
  list_to_set
    (map (fun r => (RawStatements.mk_hash r, RawStatements.source_hash r))
         (filter (fun r => RawStatements.db_info_id r = Some dbid)
                 (raw_statements db))).

(** What [update] is left with after fetching and filtering against the
    pairs persisted in [db]. *)
Definition kept_stmts `{Library} (self : KnowledgebaseManager) (dbid : Z) (db : DB)
  : outcome (list Statement) :=
  match fetched self with
  | Raised e => Raised e
  | Returned stmts => filter_new (persisted_keys dbid db) stmts
  end.

(** Batch inserts of statements among the journalled actions. *)
Definition is_insert_db_stmts (a : action) : bool :=
  match a with
  | DidInsertDbStmts _ _ => true
  | _ => false
  end.

(** The total number of evidence records of a sequence of statements. *)
Definition evidence_count (stmts : list Statement) : nat :=
  sum_list_with (fun stmt => length (evidence stmt)) stmts.



(** ** Concrete inputs

    Small statements, managers, stores and runs on which the definitions are
    evaluated below. *)

Definition ev_a : Evidence := mkEvidence "biogrid:1" "a" "100".
Definition ev_b : Evidence := mkEvidence "biogrid:22" "b" "2000".

Definition stmt_none : Statement := mkStatement "Complex" ["A"; "B"] [] "u0".
Definition stmt_one : Statement := mkStatement "Phosphorylation" ["A"; "B"] [ev_a] "u1".
Definition stmt_two : Statement := mkStatement "Activation" ["A"; "C"] [ev_a; ev_b] "u2".
Definition stmt_other : Statement := mkStatement "Inhibition" ["D"] [ev_b] "u3".
Definition stmt_invalid : Statement := mkStatement EmptyString ["A"] [ev_a] "u4".

Definition empty_db : DB := mkDB [] [] 1 [].

Definition tas_with (src : string) (out : outcome (list Statement)) : KnowledgebaseManager :=
  mkManager "TAS" "tas" src out.

(** A store in which ["tas"] is registered under the source ["tas"] and
    already holds [stmt_one]. *)
Definition tas_db : DB :=
  mkDB [DBInfo.mk 1 "tas" "tas" "TAS"]
       [RawStatements.mk (ref_get_hash stmt_one) (ref_get_source_hash ev_a) (Some 1%Z)]
       2 [].

(** A run in which the client object answers to the name [_set_lambda_env]
    uses, as a test double does, and in which loading the dump raises. *)
Definition stub_client_load_fails : Surroundings :=
  mkSurroundings (fun here => bool_decide (here = AtLoadDump))
    ["update_function_configureation"]
    "postgresql://principal/indradb" "/tmp/readonly.dump".

(** A run with the same client in which no external call raises. *)
Definition stub_client_all_well : Surroundings :=
  mkSurroundings (fun _ => false)
    ["update_function_configureation"]
    "postgresql://principal/indradb" "/tmp/readonly.dump".

(** A run with a client that offers the configuration update under the name
    of the AWS API, in which no external call raises. *)
Definition boto3_client_all_well : Surroundings :=
  mkSurroundings (fun _ => false)
    ["update_function_configuration"]
    "postgresql://principal/indradb" "/tmp/readonly.dump".

(** A run in which generating the readonly schema raises. *)
Definition generation_fails : Surroundings :=
  mkSurroundings (fun here => bool_decide (here = AtGenerateReadonly))
    ["update_function_configuration"]
    "postgresql://principal/indradb" "/tmp/readonly.dump".

Definition default_args : Args :=
  mkArgs "primary" "primary" DefaultAll false false.

Definition delete_existing_args : Args :=
  mkArgs "primary" "primary" DefaultAll false true.

Definition world_at_rest : World := mkWorld [] ["public"] None [].

Definition world_with_readonly : World :=
  mkWorld [] ["public"; "readonly"] None [].

(** ** The rest of knowledgebase_manager.py *)

(** How a run of the module as a script ends: it falls off the end, it
    calls [sys.exit], or an exception of a manager goes uncaught. *)
Inductive script_end : Type :=
| Finished
| Exited (code : nat)
| Uncaught (e : exn).

Section Script.
Context `{Library}.

(** The loop of the [__main__] block over
    [KnowledgebaseManager.__subclasses__()], from the store on: the mode is
    looked at for each manager in turn, inside the loop. *)
Fixpoint run_managers (mode : string) (managers : list KnowledgebaseManager)
    (db : DB) : script_end * DB :=
  match managers with
  | [] => (Finished, db)
  | kbm :: rest =>
      if String.eqb mode "upload" then
        match upload kbm db with
        | (Returned _, db') => run_managers mode rest db'
        | (Raised e, db') => (Uncaught e, db')
        end
      else if String.eqb mode "update" then
        match update kbm db with
        | (Returned _, db') => run_managers mode rest db'
        | (Raised e, db') => (Uncaught e, db')
        end
      else (Exited 1, db)
  end.

(** The loop of [CTDManager._get_statements] over the subsets: each subset
    is fetched (which may raise) and its expansion is added to [all_stmts]. *)
Fixpoint ctd_all_stmts (all_stmts : list Statement)
    (subsets : list (outcome (list Statement))) : outcome (list Statement) :=
  match subsets with
  | [] => Returned all_stmts
  | Raised e :: _ => Raised e
  | Returned stmts :: rest => ctd_all_stmts (all_stmts ++ _expanded stmts) rest
  end.

End Script.

(** A statement whose key can be computed and is not among [keys]. *)
Definition is_new `{Library} (keys : gset (Z * Z)) (s : Statement) : bool :=
  match stmt_key s with
  | Returned k => bool_decide (k ∉ keys)
  | Raised _ => false
  end.

(** *** [PathwayCommonsManager] *)

(** What [_can_include] can raise: the assertion on the number of evidence
    records (the message carries the number found) and the lookup of a
    missing annotation. *)
Inductive pc_error : Type :=
| AssertionError (num_ev : nat)
| KeyError (key : string).

(** [PathwayCommonsManager.skips] *)
Definition skips : gset string :=
  list_to_set ["psp"; "hprd"; "biogrid"; "phosphosite"; "phosphositeplus";
               "ctd"; "drugbank"].

Section PathwayCommons.
Context `{Library}.

(** [ev.annotations], a dictionary of the INDRA evidence object. *)
Variable annotations : Evidence -> gmap string string.

(** [self.counts[ssid] += 1] on a [defaultdict(lambda: 0)] *)
Definition count_one (ssid : string) (counts : gmap string nat)
  : gmap string nat :=
  <[ssid := default 0 (counts !! ssid) + 1]> counts.

(** [PathwayCommonsManager._can_include]: the outcome and [self.counts]
    afterwards. *)
Definition _can_include (stmt : Statement) (counts : gmap string nat)
  : (pc_error + bool) * gmap string nat :=
  match evidence stmt with
  | [ev] =>
      match annotations ev !! "source_sub_id" with
      | None => (inl (KeyError "source_sub_id"), counts)
      | Some ssid => (inr (bool_decide (ssid ∉ skips)), count_one ssid counts)
      end
  | evs => (inl (AssertionError (length evs)), counts)
  end.

(** The comprehension [[s for s in ... if self._can_include(s)]]. *)
Fixpoint included (stmts : list Statement) (counts : gmap string nat)
  : (pc_error + list Statement) * gmap string nat :=
  match stmts with
  | [] => (inr [], counts)
  | s :: rest =>
      match _can_include s counts with
      | (inl e, counts') => (inl e, counts')
      | (inr keep, counts') =>
          match included rest counts' with
          | (inl e, counts'') => (inl e, counts'')
          | (inr kept, counts'') =>
              (inr (if keep : bool then s :: kept else kept), counts'')
          end
      end
  end.

(** [filtered_stmts] of [PathwayCommonsManager._get_statements], from the
    unpickled statements on. *)
Definition pc_filtered_stmts (stmts : list Statement)
    (counts : gmap string nat)
  : (pc_error + list Statement) * gmap string nat :=
  included (_expanded stmts) counts.

(** The evidence records of a sequence of statements that carry a given
    ['source_sub_id']. *)
Definition with_sub_id (ssid : string) (stmts : list Statement)
  : list Evidence :=
  filter (fun ev => annotations ev !! "source_sub_id" = Some ssid)
         (flat_map evidence stmts).

End PathwayCommons.

(** ** The rest of readonly_manager.py *)

(** ASCII letters, as the classes [[a-z]] and [[A-Z]] of the pattern. *)
Definition is_lower (c : ascii) : bool :=
  (97 <=? nat_of_ascii c) && (nat_of_ascii c <=? 122).

Definition is_upper (c : ascii) : bool :=
  (65 <=? nat_of_ascii c) && (nat_of_ascii c <=? 90).

(** [str.lower()] on ASCII text. *)
Definition lower_char (c : ascii) : ascii :=
  if is_upper c then ascii_of_nat (nat_of_ascii c + 32) else c.

Fixpoint lower (s : string) : string :=
  match s with
  | EmptyString => EmptyString
  | String c s' => String (lower_char c) (lower s')
  end.

(** [re.sub(r'([a-z])([A-Z])', '\g<1>_\g<2>', word)]: the matches are found
    from left to right and do not overlap; the search goes on after the
    upper-case letter of a match. *)
Fixpoint snake (word : string) : string :=
  match word with
  | String a (String b rest as tail) =>
      if is_lower a && is_upper b
      then String a (String "_" (String b (snake rest)))
      else String a (snake tail)
  | _ => word
  end.

(** [uncamel] *)
Definition uncamel (word : string) : string := lower (snake word).

(** Words of ASCII characters, to which the model of [str.lower()] applies. *)
Definition is_ascii (word : string) : Prop :=
  Forall (fun c => nat_of_ascii c < 128) (String.list_ascii_of_string word).

(** Whether a word holds an upper-case ASCII letter. *)
Fixpoint has_upper (word : string) : bool :=
  match word with
  | EmptyString => false
  | String c rest => is_upper c || has_upper rest
  end.

(** A word without its underscores. *)
Fixpoint without_underscores (word : string) : string :=
  match word with
  | EmptyString => EmptyString
  | String c rest =>
      if Ascii.eqb c "_" then without_underscores rest
      else String c (without_underscores rest)
  end.

(** [needle in hay] on strings. *)
Definition contains (needle hay : string) : bool :=
  match String.index 0 needle hay with
  | Some _ => true
  | None => false
  end.

(** [s.endswith(suffix)] *)
Fixpoint endswith (s suffix : string) : bool :=
  String.eqb s suffix ||
  match s with
  | EmptyString => false
  | String _ s' => endswith s' suffix
  end.

(** The dictionary comprehension of [get_lambda_client] over
    [res['Credentials'].items()], in the order of the items. *)
Definition credential_kwargs {V} (credentials : list (string * V))
  : gmap string V :=
  foldl (fun kwargs kv =>
           if contains "expiration" (lower kv.1)
           then kwargs
           else <["aws_" +:+ uncamel kv.1 := kv.2]> kwargs)
        ∅ credentials.

(** What [sts.get_caller_identity()] gives, as far as it is read. *)
Record Identity : Type := mkIdentity {
  Arn : string;
  Account : string
}.

(** [get_lambda_client], up to the keyword arguments of
    [boto3.client('lambda', **kwargs)]: [aws_role] is the configured role
    ([None] or a string), [assume_role] is the call to STS with the role ARN,
    which gives the credentials or raises. *)
Definition lambda_client_kwargs {V} (aws_role : option string)
    (ident : Identity) (assume_role : string -> outcome (list (string * V)))
  : outcome (gmap string V) :=
  match aws_role with
  | Some role =>
      if negb (String.eqb role EmptyString) && negb (endswith (Arn ident) role)
      then
        let new_role_arn :=
          "arn:aws:iam::" +:+ Account ident +:+ ":role/" +:+ role in
        match assume_role new_role_arn with
        | Raised e => Raised e
        | Returned credentials => Returned (credential_kwargs credentials)
        end
      else Returned ∅
  | None => Returned ∅
  end.

(** The fields of the credentials that STS returns for an assumed role. *)
Definition sts_credentials : list (string * string) :=
  [("AccessKeyId", "AKIA"); ("SecretAccessKey", "secret");
   ("SessionToken", "token"); ("Expiration", "2021-01-01")].

(** A manager whose adapter raises, and one with nothing to fetch. *)
Definition failing_manager : KnowledgebaseManager :=
  mkManager "Signor" "signor" "signor" (Raised (ExternalError "process_from_web")).

Definition idle_manager : KnowledgebaseManager :=
  mkManager "HPRD" "hprd" "hprd" (Returned []).

(** Annotations that carry the sub-identifier of the evidence record. *)
Definition sub_id_annotations (ev : Evidence) : gmap string string :=
  {[ "source_sub_id" := source_sub_id ev ]}.

(** ** Properties of the evidence expander *)

Section ExpanderProperties.
Context `{Library}.

Lemma expanded_app (xs ys : list Statement) :
  _expanded (xs ++ ys) = _expanded xs ++ _expanded ys.
Proof.
  induction xs as [|x xs IH]; simpl; [done|].
  by rewrite IH, (assoc (++)).
Qed.

Lemma expanded_copies_length stmt evs :
  length (expanded_copies stmt evs) = length evs.
Proof. induction evs; simpl; congruence. Qed.

Lemma expanded_copies_evidence stmt evs :
  Forall (fun t => length (evidence t) = 1) (expanded_copies stmt evs).
Proof.
  induction evs as [|ev evs IH]; simpl; constructor; [|done].
  simpl. by rewrite make_generic_copy_evidence.
Qed.

Lemma expanded_copies_count stmt evs :
  evidence_count (expanded_copies stmt evs) = length evs.
Proof.
  unfold evidence_count.
  induction evs as [|ev evs IH]; simpl; [done|].
  rewrite make_generic_copy_evidence. simpl. by rewrite IH.
Qed.

Lemma evidence_count_app xs ys :
  evidence_count (xs ++ ys) = evidence_count xs + evidence_count ys.
Proof. apply sum_list_with_app. Qed.

(** Each copy made for a multi-evidence statement is a generic copy of it
    holding one of its evidence records, in the order of the records. *)
Lemma expanded_copies_spec stmt evs :
  Forall2 (fun ev t =>
             t = evidence_append (make_generic_copy stmt) ev /\
             stmt_type t = stmt_type stmt /\ agents t = agents stmt /\
             evidence t = [ev])
          evs (expanded_copies stmt evs).
Proof.
  induction evs as [|ev evs IH]; simpl; constructor; [|done].
  simpl. rewrite make_generic_copy_type, make_generic_copy_agents,
    make_generic_copy_evidence. done.
Qed.

(** C4 (as amended). For every input sequence S, the output of the expander
    has the same total number of evidence records as S, and every statement
    of the output carries exactly one evidence record, except the statements
    of S that carry none, which are passed through as they are. *)
Theorem expanded_evidence_count (S : list Statement) :
  evidence_count (_expanded S) = evidence_count S /\
  Forall (fun t => length (evidence t) = 1 \/ (t ∈ S /\ evidence t = []))
         (_expanded S).
Proof.
  induction S as [|stmt S [IHc IHf]]; [split; [done|constructor]|].
  simpl. rewrite evidence_count_app. split.
  - rewrite IHc. change (evidence_count (stmt :: S))
      with (length (evidence stmt) + evidence_count S). f_equal.
    destruct (1 <? length (evidence stmt))%nat.
    + apply expanded_copies_count.
    + unfold evidence_count. simpl. lia.
  - apply Forall_app. split.
    + destruct (1 <? length (evidence stmt))%nat eqn:Hk.
      * eapply Forall_impl; [apply expanded_copies_evidence|]. by left.
      * apply Nat.ltb_ge in Hk. constructor; [|constructor].
        destruct (evidence stmt) as [|ev [|ev' evs]] eqn:He; simpl in Hk.
        -- right. split; [by left|done].
        -- by left.
        -- lia.
    + eapply Forall_impl; [exact IHf|]. simpl.
      intros t [Ht|[Ht He]]; [by left|right]. split; [by right|done].
Qed.

(** C5. Wherever a statement stands in the input, the expander emits for it,
    at that place of the output: when it carries more than one evidence
    record, one generic copy per record (the copy [make_generic_copy] gives,
    with the type and agents of the statement and exactly that record as
    evidence), in the order of the records; when it
    carries one record or none, the statement itself. *)
Theorem expanded_per_statement (before after : list Statement) (stmt : Statement) :
  exists emitted,
    _expanded (before ++ stmt :: after)
      = _expanded before ++ emitted ++ _expanded after /\
    if (1 <? length (evidence stmt))%nat
    then Forall2 (fun ev t =>
                    t = evidence_append (make_generic_copy stmt) ev /\
                    stmt_type t = stmt_type stmt /\ agents t = agents stmt /\
                    evidence t = [ev])
                 (evidence stmt) emitted
    else emitted = [stmt].
Proof.
  exists (if (1 <? length (evidence stmt))%nat
          then expanded_copies stmt (evidence stmt) else [stmt]).
  split.
  - by rewrite expanded_app.
  - destruct (1 <? length (evidence stmt))%nat; [apply expanded_copies_spec|done].
Qed.

End ExpanderProperties.

(** C4, as first stated, fails: a statement without evidence is yielded as
    it is, so the output holds a statement with no evidence record. *)
Lemma expanded_not_all_single :
  ~ (evidence_count (@_expanded reference [stmt_none; stmt_two])
       = evidence_count [stmt_none; stmt_two] /\
     Forall (fun t => length (evidence t) = 1)
            (@_expanded reference [stmt_none; stmt_two])).
Proof.
  intros [_ Hall]. apply Forall_cons_1 in Hall as [Hlen _].
  simpl in Hlen. discriminate.
Qed.

(** The expander on a sequence with a statement of each kind. *)
Example expanded_three :
  @_expanded reference [stmt_none; stmt_one; stmt_two]
  = [stmt_none; stmt_one;
     mkStatement "Activation" ["A"; "C"] [ev_a] EmptyString;
     mkStatement "Activation" ["A"; "C"] [ev_b] EmptyString].
Proof. reflexivity. Qed.

(** ** Properties of the knowledge-base manager *)

Ltac run :=
  unfold mbind, mret, Py_bind, Py_ret, bind, ret, raise, gets, modify, lift,
    record in *; simpl in *.

Section ManagerProperties.
Context `{Library}.

(** *** Registration *)

Lemma check_reference_absent self can_create db :
  registration self db = None ->
  _check_reference self can_create db =
    if can_create
    then (Returned (Some (next_id db)),
          let r := DBInfo.mk (next_id db) (short_name self) (source self) (name self) in
          {| db_info := db_info db ++ [r];
             raw_statements := raw_statements db;
             next_id := (next_id db + 1)%Z;
             journal := journal db ++ [DidSelectOne (short_name self); DidInsert r] |})
    else (Returned None, logged [DidSelectOne (short_name self)] db).
Proof.
  unfold registration, _check_reference, select_one, insert. intros Hfind. run.
  rewrite Hfind. destruct can_create; simpl; [|done].
  by rewrite <- (assoc (++)).
Qed.

Lemma check_reference_checked self can_create db r :
  registration self db = Some r ->
  _check_reference self can_create db
    = (Returned (Some (DBInfo.id r)), checked self r db).
Proof.
  unfold registration, _check_reference, select_one, set_source_api, commit,
    checked.
  intros Hfind. run. rewrite Hfind.
  destruct (String.eqb (DBInfo.source_api r) (source self)); simpl; [done|].
  by rewrite <- (assoc (++)).
Qed.

Lemma registration_name self db r :
  registration self db = Some r -> DBInfo.db_name r = short_name self.
Proof.
  unfold registration. intros Hr. apply find_some in Hr as [_ Hn].
  by apply String.eqb_eq.
Qed.

Lemma registration_db_info self db db' :
  db_info db = db_info db' -> registration self db = registration self db'.
Proof. unfold registration. by intros ->. Qed.

Lemma find_app_none {A} (p : A -> bool) (l l' : list A) :
  find p l = None -> find p (l ++ l') = find p l'.
Proof.
  induction l as [|x l IH]; simpl; [done|]. destruct (p x); [done|exact IH].
Qed.

Lemma find_overwrite n src rows r :
  find (fun r => String.eqb (DBInfo.db_name r) n) rows = Some r ->
  find (fun r => String.eqb (DBInfo.db_name r) n) (overwrite_source_api n src rows)
  = Some (DBInfo.mk (DBInfo.id r) (DBInfo.db_name r) src (DBInfo.db_full_name r)).
Proof.
  induction rows as [|r0 rows IH]; simpl; [done|].
  destruct (String.eqb (DBInfo.db_name r0) n) eqn:E; simpl.
  - intros [= ->]. by rewrite E.
  - rewrite E. apply IH.
Qed.

Lemma registration_checked self db r :
  registration self db = Some r ->
  registration self (checked self r db) = Some (registered_row self r).
Proof.
  intros Hr. pose proof (registration_name _ _ _ Hr) as Hn.
  unfold checked, registered_row.
  destruct (String.eqb (DBInfo.source_api r) (source self)) eqn:E.
  - apply String.eqb_eq in E. unfold registration in *. simpl.
    rewrite Hr. f_equal. destruct r; simpl in *. by subst.
  - unfold registration in *. simpl. rewrite Hn.
    rewrite (find_overwrite _ _ _ _ Hr). by rewrite Hn.
Qed.

Lemma raw_statements_checked self db r :
  raw_statements (checked self r db) = raw_statements db.
Proof. unfold checked. by destruct (String.eqb _ _). Qed.

Lemma checked_registered_row self db r :
  checked self (registered_row self r) db
  = logged [DidSelectOne (short_name self)] db.
Proof. unfold checked, registered_row. simpl. by rewrite String.eqb_refl. Qed.

Lemma journal_checked self r db :
  exists acts,
    journal (checked self r db) = journal db ++ acts /\
    Forall (fun a => is_insert_db_stmts a = false) acts.
Proof.
  unfold checked. destruct (String.eqb _ _); simpl; eexists;
    (split; [done|by repeat constructor]).
Qed.

(** *** [update], path by path *)

Lemma update_absent self db :
  registration self db = None ->
  update self db =
    (Raised (ValueError "This knowledge base has not yet been registered."),
     logged [DidSelectOne (short_name self)] db).
Proof.
  intros Hr. unfold update. run.
  by rewrite (check_reference_absent _ false _ Hr).
Qed.

Lemma update_present self db r :
  registration self db = Some r ->
  update self db =
    let dbid := DBInfo.id r in
    let db1 := checked self r db in
    match kept_stmts self dbid db with
    | Raised e => (Raised e, logged [DidSelectAll dbid; DidGetStatements] db1)
    | Returned kept =>
        let acts := [DidSelectAll dbid; DidGetStatements;
                     DidInsertDbStmts (Some dbid) (length kept)] in
        if single_evidence kept
        then (Returned tt,
              logged acts (with_rows (flat_map (stmt_rows (Some dbid)) kept) db1))
        else (Raised (ExternalError "insert_db_stmts"), logged acts db1)
    end.
Proof.
  intros Hr. unfold update. run.
  rewrite (check_reference_checked _ false _ _ Hr).
  unfold select_all, _get_statements, insert_db_stmts, kept_stmts, persisted_keys.
  run. rewrite raw_statements_checked.
  destruct (fetched self) as [stmts|e]; simpl.
  - destruct (filter_new _ stmts) as [kept|e]; simpl.
    + destruct (single_evidence kept); unfold logged, with_rows; simpl;
        by rewrite ?raw_statements_checked, <- !(assoc (++)).
    + unfold logged; simpl. by rewrite ?raw_statements_checked, <- !(assoc (++)).
  - unfold logged; simpl. by rewrite ?raw_statements_checked, <- !(assoc (++)).
Qed.

(** *** Persisted keys *)

Lemma elem_of_map {A B} (f : A -> B) (l : list A) (y : B) :
  y ∈ map f l <-> exists x, y = f x /\ x ∈ l.
Proof.
  rewrite list_elem_of_In, in_map_iff. split.
  - intros (x & <- & Hx). exists x. split; [done|by apply list_elem_of_In].
  - intros (x & -> & Hx). exists x. split; [done|by apply list_elem_of_In].
Qed.

Lemma elem_of_persisted_keys dbid db k :
  k ∈ persisted_keys dbid db <->
  RawStatements.mk k.1 k.2 (Some dbid) ∈ raw_statements db.
Proof.
  unfold persisted_keys.
  rewrite elem_of_list_to_set, elem_of_map. split.
  - intros (r & -> & Hr). apply list_elem_of_filter in Hr as [Hd Hr].
    destruct r as [h sh d]. simpl in *. by subst.
  - intros Hr. eexists. split; [|apply list_elem_of_filter; split; [|exact Hr]];
      [by destruct k|done].
Qed.

Lemma persisted_keys_with_rows dbid db rows :
  persisted_keys dbid db ⊆ persisted_keys dbid (with_rows rows db).
Proof.
  intros k. rewrite !elem_of_persisted_keys. simpl. rewrite elem_of_app. by left.
Qed.

Lemma persisted_keys_logged dbid db acts :
  persisted_keys dbid (logged acts db) = persisted_keys dbid db.
Proof. done. Qed.

Lemma persisted_keys_checked dbid self r db :
  persisted_keys dbid (checked self r db) = persisted_keys dbid db.
Proof. unfold persisted_keys. by rewrite raw_statements_checked. Qed.

Lemma kept_stmts_raw self dbid db db' :
  raw_statements db = raw_statements db' ->
  kept_stmts self dbid db = kept_stmts self dbid db'.
Proof. unfold kept_stmts, persisted_keys. by intros ->. Qed.

Lemma with_rows_nil db : with_rows [] db = db.
Proof. destruct db. unfold with_rows. simpl. by rewrite app_nil_r. Qed.

Lemma logged_logged acts acts' db :
  logged acts' (logged acts db) = logged (acts ++ acts') db.
Proof. unfold logged. simpl. by rewrite (assoc (++)). Qed.

(** *** The filter of [update] *)

Lemma filter_new_raises keys stmts :
  Exists (fun s => evidence s = []) stmts ->
  filter_new keys stmts = Raised IndexError.
Proof.
  induction 1 as [s stmts Hs|s stmts _ IH]; simpl; unfold stmt_key.
  - by rewrite Hs.
  - destruct (evidence s); [done|]. by rewrite IH.
Qed.

Lemma filter_new_raised keys stmts e :
  filter_new keys stmts = Raised e ->
  e = IndexError /\ Exists (fun s => evidence s = []) stmts.
Proof.
  revert e. induction stmts as [|s stmts IH]; intros e; simpl; [done|].
  unfold stmt_key. destruct (evidence s) eqn:Hev.
  - intros [= <-]. split; [done|by left].
  - destruct (filter_new keys stmts) as [kept|e'] eqn:Hf; [done|].
    intros [= <-]. destruct (IH e' eq_refl) as [-> Hex]. split; [done|by right].
Qed.

(** A statement of the input is already persisted, or it is kept. *)
Lemma filter_new_kept keys stmts kept s :
  filter_new keys stmts = Returned kept -> s ∈ stmts ->
  exists k, stmt_key s = Returned k /\ (k ∈ keys \/ s ∈ kept).
Proof.
  revert kept. induction stmts as [|s0 stmts IH]; simpl; intros kept Hf Hs.
  - by apply elem_of_nil in Hs.
  - destruct (stmt_key s0) as [k0|] eqn:Hk0; [|done].
    destruct (filter_new keys stmts) as [kept0|]; [|done].
    injection Hf as <-. apply elem_of_cons in Hs as [->|Hs].
    + exists k0. split; [done|]. case_bool_decide as Hin.
      * right. by left.
      * by left.
    + destruct (IH _ eq_refl Hs) as (k & Hk & [Hin|Hin]); exists k; split; try done.
      * by left.
      * right. case_bool_decide; [by right|done].
Qed.

Lemma filter_new_all_known keys stmts :
  Forall (fun s => exists k, stmt_key s = Returned k /\ k ∈ keys) stmts ->
  filter_new keys stmts = Returned [].
Proof.
  induction 1 as [|s stmts (k & Hk & Hin) _ IH]; simpl; [done|].
  rewrite Hk, IH. by rewrite bool_decide_eq_false_2 by (by intros ?).
Qed.

Lemma single_evidence_key dbid kept s k :
  single_evidence kept = true -> s ∈ kept -> stmt_key s = Returned k ->
  RawStatements.mk k.1 k.2 (Some dbid) ∈ flat_map (stmt_rows (Some dbid)) kept.
Proof.
  unfold single_evidence. rewrite forallb_forall. intros Hall Hs Hk.
  rewrite list_elem_of_In. apply in_flat_map. exists s.
  split; [by apply list_elem_of_In|].
  apply list_elem_of_In in Hs. apply Hall in Hs. apply Nat.eqb_eq in Hs.
  unfold stmt_key, stmt_rows in *.
  destruct (evidence s) as [|ev [|]]; simpl in *; try done.
  injection Hk as <-. by left.
Qed.

(** After a completed update every fetched statement is persisted, so the
    next filter keeps nothing. *)
Lemma kept_stmts_again self dbid db kept acts db1 :
  raw_statements db1 = raw_statements db ->
  kept_stmts self dbid db = Returned kept ->
  single_evidence kept = true ->
  kept_stmts self dbid
    (logged acts (with_rows (flat_map (stmt_rows (Some dbid)) kept) db1))
  = Returned [].
Proof.
  unfold kept_stmts. intros Hraw Hkept Hsingle.
  destruct (fetched self) as [stmts|]; [|done].
  apply filter_new_all_known. apply Forall_forall. intros s Hs.
  destruct (filter_new_kept _ _ _ _ Hkept Hs) as (k & Hk & Hin).
  exists k. split; [done|]. apply elem_of_persisted_keys. simpl.
  rewrite Hraw. apply elem_of_app. destruct Hin as [Hin|Hin].
  - left. by apply elem_of_persisted_keys.
  - right. by eapply single_evidence_key.
Qed.

Lemma validate_all_invalid stmts db :
  Exists (fun s => valid_statement s = false) stmts ->
  validate_all stmts db = (Raised InvalidStatement, db).
Proof.
  induction 1 as [s stmts Hs|s stmts _ IH]; simpl; unfold assert_valid_statement; run.
  - by rewrite Hs.
  - destruct (valid_statement s); simpl; [exact IH|done].
Qed.

Lemma expanded_keeps_zero_evidence (raw : list Statement) (s : Statement) :
  s ∈ raw -> evidence s = [] -> s ∈ _expanded raw.
Proof.
  intros Hs He. induction raw as [|s0 raw IH]; [by apply elem_of_nil in Hs|].
  simpl. apply elem_of_app. apply elem_of_cons in Hs as [<-|Hs].
  - left. rewrite He. simpl. by left.
  - right. by apply IH.
Qed.

(** *** The claims about [upload], [update] and [_check_reference] *)

(** C2. When the adapter returns a batch in which some statement fails the
    validity assertion, [upload] raises the validation error, the batch
    insert is not among the actions it performed, and the statement rows of
    the store are those from before the call. *)
Theorem upload_invalid_persists_nothing self db stmts :
  fetched self = Returned stmts ->
  Exists (fun s => valid_statement s = false) stmts ->
  exists db' acts,
    upload self db = (Raised InvalidStatement, db') /\
    raw_statements db' = raw_statements db /\
    journal db' = journal db ++ acts /\
    Forall (fun a => is_insert_db_stmts a = false) acts.
Proof.
  intros Hfetch Hbad. unfold upload. run.
  destruct (registration self db) as [r|] eqn:Hr.
  - rewrite (check_reference_checked _ true _ _ Hr).
    unfold _get_statements. run. rewrite Hfetch. simpl.
    rewrite (validate_all_invalid _ _ Hbad).
    destruct (journal_checked self r db) as (acts & Hj & Hacts).
    eexists _, (acts ++ [DidGetStatements]). split; [done|]. simpl.
    rewrite raw_statements_checked, Hj, <- (assoc (++)).
    split; [done|]. split; [done|].
    apply Forall_app. split; [done|by repeat constructor].
  - rewrite (check_reference_absent _ true _ Hr).
    unfold _get_statements. run. rewrite Hfetch. simpl.
    rewrite (validate_all_invalid _ _ Hbad).
    eexists _, _. split; [done|]. simpl. split; [done|].
    rewrite <- (assoc (++)). split; [done|]. by repeat constructor.
Qed.

(** After a completed update every fetched statement has its key among the
    pairs persisted under the registration. *)
Lemma fetched_keys_persisted dbid db stmts kept acts db1 :
  raw_statements db1 = raw_statements db ->
  filter_new (persisted_keys dbid db) stmts = Returned kept ->
  single_evidence kept = true ->
  Forall (fun s => exists k,
            stmt_key s = Returned k /\
            k ∈ persisted_keys dbid
                  (logged acts
                     (with_rows (flat_map (stmt_rows (Some dbid)) kept) db1)))
         stmts.
Proof.
  intros Hraw Hkept Hsingle. apply Forall_forall. intros s Hs.
  destruct (filter_new_kept _ _ _ _ Hkept Hs) as (k & Hk & Hin).
  exists k. split; [done|]. apply elem_of_persisted_keys. simpl.
  rewrite Hraw. apply elem_of_app. destruct Hin as [Hin|Hin].
  - left. by apply elem_of_persisted_keys.
  - right. by eapply single_evidence_key.
Qed.

(** C3 (as amended). Running [update] twice in a row persists no row on the
    second call, whatever the adapter returns. And whenever the first call
    returns: the manager is registered and the adapter returned a list; the
    first call appended the rows of the statements its filter kept under the
    registration; every statement of the fetch then has its key in the index
    built from the rows persisted under the registration, so the filter of
    the second call keeps nothing; and the second call returns, having
    looked up the registration, read the key index, fetched, and called the
    batch insert with zero statements. *)
Theorem update_twice self db :
  let first := update self db in
  let second := update self first.2 in
  raw_statements second.2 = raw_statements first.2 /\
  (first.1 = Returned tt ->
   exists r stmts kept,
     registration self db = Some r /\
     fetched self = Returned stmts /\
     filter_new (persisted_keys (DBInfo.id r) db) stmts = Returned kept /\
     raw_statements first.2
       = raw_statements db ++ flat_map (stmt_rows (Some (DBInfo.id r))) kept /\
     Forall (fun s => exists k,
               stmt_key s = Returned k /\
               k ∈ persisted_keys (DBInfo.id r) first.2) stmts /\
     filter_new (persisted_keys (DBInfo.id r) first.2) stmts = Returned [] /\
     second =
       (Returned tt,
        logged [DidSelectOne (short_name self); DidSelectAll (DBInfo.id r);
                DidGetStatements; DidInsertDbStmts (Some (DBInfo.id r)) 0]
               first.2)).
Proof.
  simpl. destruct (registration self db) as [r|] eqn:Hr.
  - pose proof (registration_checked _ _ _ Hr) as Hr1.
    rewrite (update_present _ _ _ Hr). simpl.
    destruct (kept_stmts self (DBInfo.id r) db) as [kept|e] eqn:Hkept; simpl.
    + destruct (single_evidence kept) eqn:Hsingle; simpl.
      * erewrite update_present by (rewrite <- Hr1; by apply registration_db_info).
        simpl. rewrite checked_registered_row.
        rewrite (kept_stmts_again _ _ _ _ _ _ (raw_statements_checked _ _ _) Hkept Hsingle).
        simpl. rewrite with_rows_nil, logged_logged. split; [apply app_nil_r|].
        intros _. unfold kept_stmts in Hkept.
        destruct (fetched self) as [stmts|] eqn:Hfetch; [|done].
        pose proof (fetched_keys_persisted (DBInfo.id r) db stmts kept
          [DidSelectAll (DBInfo.id r); DidGetStatements;
           DidInsertDbStmts (Some (DBInfo.id r)) (length kept)]
          (checked self r db) (raw_statements_checked _ _ _) Hkept Hsingle)
          as Hkeys.
        exists r, stmts, kept.
        split; [done|]. split; [done|]. split; [done|].
        split; [by rewrite raw_statements_checked|].
        split; [exact Hkeys|]. split; [|done].
        apply filter_new_all_known. exact Hkeys.
      * erewrite update_present by (rewrite <- Hr1; by apply registration_db_info).
        simpl. rewrite checked_registered_row.
        erewrite (kept_stmts_raw _ _ (logged _ _) db), Hkept
          by apply raw_statements_checked.
        rewrite Hsingle. simpl. rewrite raw_statements_checked. split; [done|].
        intros [=].
    + erewrite update_present by (rewrite <- Hr1; by apply registration_db_info).
      simpl. rewrite checked_registered_row.
      erewrite (kept_stmts_raw _ _ (logged _ _) db), Hkept
        by apply raw_statements_checked.
      simpl. rewrite raw_statements_checked. split; [done|]. intros [=].
  - rewrite (update_absent _ _ Hr). simpl.
    rewrite update_absent by (rewrite <- Hr; by apply registration_db_info).
    simpl. split; [done|]. intros [=].
Qed.


(** C7. In a store with no registration under the manager's short name,
    [update] raises the "not registered" error and leaves the store as it
    was but for the one lookup it journalled: no registration row inserted,
    no key index read, the adapter not called, no statement persisted. *)
Theorem update_unregistered self db :
  registration self db = None ->
  update self db =
    (Raised (ValueError "This knowledge base has not yet been registered."),
     logged [DidSelectOne (short_name self)] db).
Proof. apply update_absent. Qed.

(** C8. Whatever [update] does, the statement rows of the store afterwards
    are those from before followed by new ones, so for every registration
    the persisted pairs afterwards include those from before. *)
Theorem update_only_inserts self db dbid :
  let db' := (update self db).2 in
  persisted_keys dbid db ⊆ persisted_keys dbid db' /\
  exists rows, raw_statements db' = raw_statements db ++ rows.
Proof.
  simpl. destruct (registration self db) as [r|] eqn:Hr.
  - rewrite (update_present _ _ _ Hr). simpl.
    destruct (kept_stmts self (DBInfo.id r) db) as [kept|e]; simpl.
    + destruct (single_evidence kept); simpl.
      * rewrite persisted_keys_logged. split.
        -- etrans; [|apply persisted_keys_with_rows].
           by rewrite persisted_keys_checked.
        -- eexists. by rewrite raw_statements_checked.
      * rewrite persisted_keys_logged, persisted_keys_checked. split; [done|].
        exists []. by rewrite raw_statements_checked, app_nil_r.
    + rewrite persisted_keys_logged, persisted_keys_checked. split; [done|].
      exists []. by rewrite raw_statements_checked, app_nil_r.
  - rewrite (update_absent _ _ Hr). simpl. split; [done|].
    exists []. by rewrite app_nil_r.
Qed.

(** C10. For a registered manager whose adapter returns [stmts], [update]
    raises [IndexError] exactly when some statement of [stmts] carries no
    evidence record; and the expander does not protect against it, since a
    statement without evidence in its input is in its output. *)
Theorem update_needs_evidence self db r stmts :
  registration self db = Some r ->
  fetched self = Returned stmts ->
  ((update self db).1 = Raised IndexError <->
   Exists (fun s => evidence s = []) stmts) /\
  (forall raw s, s ∈ raw -> evidence s = [] -> s ∈ _expanded raw).
Proof.
  intros Hr Hfetch. split; [|apply expanded_keeps_zero_evidence].
  rewrite (update_present _ _ _ Hr). simpl. unfold kept_stmts. rewrite Hfetch.
  split.
  - destruct (filter_new _ stmts) as [kept|e] eqn:Hf; simpl.
    + by destruct (single_evidence kept).
    + intros _. by apply filter_new_raised in Hf as [_ Hex].
  - intros Hex. by rewrite (filter_new_raises _ _ Hex).
Qed.

End ManagerProperties.

(** *** The claims on concrete stores *)

Lemma upload_invalid_witness :
  exists db' acts,
    @upload reference (tas_with "tas" (Returned [stmt_one; stmt_invalid])) empty_db
      = (Raised InvalidStatement, db') /\
    raw_statements db' = raw_statements empty_db /\
    journal db' = journal empty_db ++ acts /\
    Forall (fun a => is_insert_db_stmts a = false) acts.
Proof.
  apply (@upload_invalid_persists_nothing reference _ _ [stmt_one; stmt_invalid]).
  - reflexivity.
  - apply Exists_cons_tl, Exists_cons_hd. reflexivity.
Defined.

Lemma update_twice_witness :
  let self := tas_with "tas" (Returned [stmt_one; stmt_other]) in
  let first := @update reference self tas_db in
  first.1 = Returned tt /\
  exists r stmts kept,
    registration self tas_db = Some r /\
    fetched self = Returned stmts /\
    @filter_new reference (persisted_keys (DBInfo.id r) tas_db) stmts
      = Returned kept /\
    raw_statements first.2
      = raw_statements tas_db ++
        flat_map (@stmt_rows reference (Some (DBInfo.id r))) kept /\
    Forall (fun s => exists k,
              @stmt_key reference s = Returned k /\
              k ∈ persisted_keys (DBInfo.id r) first.2) stmts /\
    @filter_new reference (persisted_keys (DBInfo.id r) first.2) stmts
      = Returned [] /\
    @update reference self first.2 =
      (Returned tt,
       logged [DidSelectOne (short_name self); DidSelectAll (DBInfo.id r);
               DidGetStatements; DidInsertDbStmts (Some (DBInfo.id r)) 0]
              first.2).
Proof.
  split; [vm_compute; reflexivity|].
  apply (proj2 (@update_twice reference
    (tas_with "tas" (Returned [stmt_one; stmt_other])) tas_db)).
  vm_compute. reflexivity.
Defined.

(** C3, as first stated, fails: for a registered manager whose adapter
    returns a statement without evidence, that statement of the second fetch
    has no key at all, in the index or out of it, and there is no filtered
    list: the comprehension raises [IndexError], in the first call and in
    the second. *)
Lemma update_twice_no_key :
  let self := tas_with "tas" (Returned [stmt_other; stmt_none]) in
  let first := @update reference self tas_db in
  registration self tas_db = Some (DBInfo.mk 1 "tas" "tas" "TAS") /\
  first.1 = Raised IndexError /\
  (@update reference self first.2).1 = Raised IndexError /\
  ~ (Forall (fun s => exists k,
               @stmt_key reference s = Returned k /\
               k ∈ persisted_keys 1 first.2) [stmt_other; stmt_none] /\
     @filter_new reference (persisted_keys 1 first.2) [stmt_other; stmt_none]
       = Returned []).
Proof.
  intros self first.
  split; [reflexivity|]. split; [vm_compute; reflexivity|].
  split; [vm_compute; reflexivity|].
  intros [Hall _].
  apply Forall_cons in Hall as [_ Hall].
  apply Forall_cons in Hall as [(k & Hk & _) _].
  discriminate Hk.
Qed.


Lemma update_unregistered_witness :
  @update reference (tas_with "tas" (Returned [stmt_one])) empty_db =
    (Raised (ValueError "This knowledge base has not yet been registered."),
     logged [DidSelectOne "tas"] empty_db).
Proof. apply (@update_unregistered reference). reflexivity. Defined.

Lemma update_needs_evidence_witness :
  let self := tas_with "tas" (Returned [stmt_other; stmt_none]) in
  (@update reference self tas_db).1 = Raised IndexError /\
  stmt_none ∈ @_expanded reference [stmt_two; stmt_none].
Proof.
  pose proof (@update_needs_evidence reference
    (tas_with "tas" (Returned [stmt_other; stmt_none])) tas_db
    (DBInfo.mk 1 "tas" "tas" "TAS") [stmt_other; stmt_none] eq_refl eq_refl)
    as [Hiff Hpass].
  split.
  - apply Hiff. apply Exists_cons_tl, Exists_cons_hd. reflexivity.
  - apply Hpass; [apply elem_of_cons; right; apply elem_of_cons; by left|reflexivity].
Defined.

(** [update] on the store holding [stmt_one]: of the two fetched statements
    only the new one is persisted. *)
Example update_persists_the_new_one :
  raw_statements
    (@update reference (tas_with "tas" (Returned [stmt_one; stmt_other])) tas_db).2
  = raw_statements tas_db ++
    [RawStatements.mk (ref_get_hash stmt_other) (ref_get_source_hash ev_b) (Some 1%Z)].
Proof. vm_compute. reflexivity. Qed.

(** ** Properties of the snapshot refresh cycle *)

Ltac run_py :=
  unfold mbind, mret, Py_bind, Py_ret, bind, ret, raise, gets, modify, lift in *.

Ltac unfold_main :=
  unfold main, with_statement, call, __enter__, __exit__, _set_lambda_env,
    get_db, get_ro, get_schemas, drop_schema, generate_readonly, dump_readonly,
    load_dump, session_close, grab_session, get_lambda_client, client_call,
    external; run_py; simpl.

Ltac at_site o here :=
  lazymatch goal with
  | |- context [raises o here] =>
      let E := fresh "E" in destruct (raises o here) eqn:E; simpl
  | _ => idtac
  end.

Ltac on_decision P :=
  lazymatch goal with
  | |- context [bool_decide P] =>
      let D := fresh "D" in destruct (bool_decide P) eqn:D; simpl
  | _ => idtac
  end.

(** The paths through [main], in the order in which it makes its calls. *)
Ltac in_program_order o args w :=
  destruct (delete_existing args); simpl;
  at_site o AtGetDb; at_site o AtGetRo; at_site o AtGetSchemas;
  on_decision ("readonly" ∈ schemas w);
  at_site o AtDropExisting; at_site o AtGenerateReadonly;
  at_site o AtDumpReadonly; at_site o (AtGetLambdaClient Entering);
  on_decision ("update_function_configureation" ∈ configuring_methods o);
  at_site o (AtUpdateConfiguration Entering); at_site o AtLoadDump.

Lemma generated_schema (l : list string) :
  "readonly" ∈ (if bool_decide ("readonly" ∈ l) then l else l ++ ["readonly"]).
Proof.
  case_bool_decide; [done|]. apply elem_of_app. right. by left.
Qed.

Lemma not_elem_of_decide (here : site) (calls : list site) :
  bool_decide (here ∈ calls) = false -> here ∉ calls.
Proof. apply bool_decide_eq_false. Qed.


(** Once [load_dump] has been called, the serving function is left with the
    redirect, whether the load returned or raised. *)
Lemma redirect_stays (o : Surroundings) (args : Args) (w : World) :
  AtLoadDump ∉ trace w ->
  AtLoadDump ∈ trace (main o args w).2 ->
  (main o args w).1 = Raised TypeError /\
  lambda_env (main o args w).2 = [("INDRAROOVERRIDE", principal_url o)].
Proof.
  intros Hfresh. unfold_main.
  in_program_order o args w;
    rewrite <- ?app_assoc; simpl; intros Hin;
    first [ done
          | exfalso; apply elem_of_app in Hin as [Hin|Hin]; [done|];
            revert Hin; by apply not_elem_of_decide ].
Qed.

(** With a client that offers the configuration update under the name of
    the AWS API only, [__enter__] raises: the load is never attempted. *)
Lemma misspelt_call_stops_cutover (o : Surroundings) (args : Args) (w : World) :
  "update_function_configureation" ∉ configuring_methods o ->
  AtLoadDump ∉ trace w ->
  AtLoadDump ∉ trace (main o args w).2.
Proof.
  intros Hname Hfresh.
  assert (bool_decide ("update_function_configureation" ∈ configuring_methods o)
          = false) as Hd by (by apply bool_decide_eq_false_2).
  unfold_main. rewrite Hd. simpl.
  in_program_order o args w;
    rewrite <- ?app_assoc; simpl; intros Hin;
    first [ done
          | apply elem_of_app in Hin as [Hin|Hin]; [done|];
            revert Hin; by apply not_elem_of_decide ].
Qed.

(** *** The claims about the cutover and the cleanup *)

(** C1. The run in which the client accepts the call made by
    [_set_lambda_env] and [load_dump] raises: [__enter__] installs the
    redirect, the load raises, and the call of [__exit__] with the three
    exception arguments raises [TypeError] before its body runs. The error
    that propagates is that [TypeError], no call of [__exit__]'s body is
    traced, and the serving function keeps the redirect instead of the
    empty environment it had before the cutover. *)
Theorem load_failure_leaves_redirect :
  main stub_client_load_fails default_args world_at_rest =
    (Raised TypeError,
     {| lambda_env := [("INDRAROOVERRIDE", "postgresql://principal/indradb")];
        schemas := ["public"; "readonly"];
        loaded := None;
        trace := [AtGetDb; AtGetRo; AtGenerateReadonly; AtDumpReadonly;
                  AtGetLambdaClient Entering; AtUpdateConfiguration Entering;
                  AtLoadDump] |}).
Proof. reflexivity. Qed.

(** The same client when nothing raises: the dump is loaded, and the run
    still ends in [TypeError] with the redirect in place and the schema not
    dropped. *)
Example load_success_leaves_redirect :
  main stub_client_all_well default_args world_at_rest =
    (Raised TypeError,
     {| lambda_env := [("INDRAROOVERRIDE", "postgresql://principal/indradb")];
        schemas := ["public"; "readonly"];
        loaded := Some "/tmp/readonly.dump";
        trace := [AtGetDb; AtGetRo; AtGenerateReadonly; AtDumpReadonly;
                  AtGetLambdaClient Entering; AtUpdateConfiguration Entering;
                  AtLoadDump] |}).
Proof. reflexivity. Qed.

(** With the method name of the AWS API the cutover stops in [__enter__]. *)
Example boto3_client_stops_at_enter :
  main boto3_client_all_well default_args world_at_rest =
    (Raised (AttributeError "update_function_configureation"),
     {| lambda_env := [];
        schemas := ["public"; "readonly"];
        loaded := None;
        trace := [AtGetDb; AtGetRo; AtGenerateReadonly; AtDumpReadonly;
                  AtGetLambdaClient Entering] |}).
Proof. reflexivity. Qed.




(** ** Further properties of the evidence expander and of its callers *)

Section ExpanderFurther.
Context `{Library}.

Lemma expanded_copies_records stmt evs :
  flat_map evidence (expanded_copies stmt evs) = evs.
Proof.
  induction evs as [|ev evs IH]; simpl; [done|].
  by rewrite make_generic_copy_evidence, IH.
Qed.

Lemma expanded_at_most_one (S : list Statement) :
  Forall (fun t => length (evidence t) <= 1) (_expanded S).
Proof.
  induction S as [|stmt S IH]; simpl; [constructor|].
  apply Forall_app. split; [|done].
  destruct (1 <? length (evidence stmt)) eqn:Hk.
  - eapply Forall_impl; [apply expanded_copies_evidence|]. simpl. lia.
  - apply Nat.ltb_ge in Hk. constructor; [done|constructor].
Qed.

Lemma expanded_of_normalized (S : list Statement) :
  Forall (fun s => length (evidence s) <= 1) S -> _expanded S = S.
Proof.
  induction 1 as [|stmt S Hk _ IH]; simpl; [done|].
  apply Nat.ltb_ge in Hk. by rewrite Hk, IH.
Qed.

(** X1. The expander neither loses, nor repeats, nor reorders evidence: the
    evidence records of its output, read in order, are those of its input. *)
Theorem expanded_keeps_evidence_order (S : list Statement) :
  flat_map evidence (_expanded S) = flat_map evidence S.
Proof.
  induction S as [|stmt S IH]; simpl; [done|].
  rewrite flat_map_app, IH. f_equal.
  destruct (1 <? length (evidence stmt)).
  - apply expanded_copies_records.
  - simpl. apply app_nil_r.
Qed.

(** X2. Expanding twice is expanding once. *)
Theorem expanded_idempotent (S : list Statement) :
  _expanded (_expanded S) = _expanded S.
Proof. apply expanded_of_normalized, expanded_at_most_one. Qed.

(** X3. On statements that carry at most one evidence record each (what
    [PhosphoElmManager] says its processor always produces) the expander
    changes nothing: the very same statements come out. *)
Theorem expanded_normalized_unchanged (S : list Statement) :
  Forall (fun s => length (evidence s) <= 1) S -> _expanded S = S.
Proof. apply expanded_of_normalized. Qed.

Lemma ctd_all_stmts_returned all_stmts lists rest :
  ctd_all_stmts all_stmts (map Returned lists ++ rest)
  = ctd_all_stmts (all_stmts ++ _expanded (concat lists)) rest.
Proof.
  revert all_stmts. induction lists as [|stmts lists IH]; intros all_stmts; simpl.
  - by rewrite app_nil_r.
  - by rewrite IH, expanded_app, (assoc (++)).
Qed.

(** X4. [CTDManager] expands subset by subset and [RlimspManager] expands
    the concatenation; the two orders give the same sequence. When every
    subset is fetched, the statements CTD hands to the duplicate extractor
    are the expansion of the subsets put end to end; when a fetch raises, its
    exception is the outcome, whatever came before and after. *)
Theorem ctd_all_stmts_spec (lists : list (list Statement))
    (e : exn) (rest : list (outcome (list Statement))) :
  ctd_all_stmts [] (map Returned lists) = Returned (_expanded (concat lists)) /\
  ctd_all_stmts [] (map Returned lists ++ Raised e :: rest) = Raised e.
Proof.
  split.
  - rewrite <- (app_nil_r (map Returned lists)).
    by rewrite ctd_all_stmts_returned.
  - by rewrite ctd_all_stmts_returned.
Qed.

End ExpanderFurther.

Lemma expanded_normalized_unchanged_witness :
  @_expanded reference [stmt_none; stmt_one; stmt_other]
  = [stmt_none; stmt_one; stmt_other].
Proof.
  apply (@expanded_normalized_unchanged reference).
  repeat constructor.
Defined.

(** ** Further properties of the knowledge-base manager *)

Section ManagerFurther.
Context `{Library}.

Lemma find_app_other {A} (p : A -> bool) (l : list A) (x : A) :
  p x = false -> find p (l ++ [x]) = find p l.
Proof.
  intros Hx. induction l as [|y l IH]; simpl; [by rewrite Hx|].
  by destruct (p y).
Qed.

Lemma find_overwrite_other n m src rows :
  n <> m ->
  find (fun r => String.eqb (DBInfo.db_name r) n) (overwrite_source_api m src rows)
  = find (fun r => String.eqb (DBInfo.db_name r) n) rows.
Proof.
  intros Hne. induction rows as [|r rows IH]; simpl; [done|].
  destruct (String.eqb (DBInfo.db_name r) m) eqn:Em; simpl.
  - apply String.eqb_eq in Em.
    destruct (String.eqb (DBInfo.db_name r) n) eqn:En; [|done].
    apply String.eqb_eq in En. congruence.
  - by rewrite IH.
Qed.

Lemma validate_all_valid stmts db :
  Forall (fun s => valid_statement s = true) stmts ->
  validate_all stmts db = (Returned tt, db).
Proof.
  induction 1 as [|s stmts Hs _ IH]; simpl; [done|].
  unfold assert_valid_statement. run. by rewrite Hs.
Qed.

Lemma upload_present self db r stmts :
  registration self db = Some r ->
  fetched self = Returned stmts ->
  Forall (fun s => valid_statement s = true) stmts ->
  single_evidence stmts = true ->
  upload self db =
    (Returned tt,
     logged [DidGetStatements; DidInsertDbStmts (Some (DBInfo.id r)) (length stmts)]
       (with_rows (flat_map (stmt_rows (Some (DBInfo.id r))) stmts)
          (checked self r db))).
Proof.
  intros Hr Hfetch Hvalid Hsingle. unfold upload. run.
  rewrite (check_reference_checked _ true _ _ Hr).
  unfold _get_statements. run. rewrite Hfetch. simpl.
  rewrite (validate_all_valid _ _ Hvalid).
  unfold insert_db_stmts. run. rewrite Hsingle. simpl.
  unfold logged, with_rows. simpl. by rewrite <- (assoc (++)).
Qed.

Lemma upload_absent self db stmts :
  registration self db = None ->
  fetched self = Returned stmts ->
  Forall (fun s => valid_statement s = true) stmts ->
  single_evidence stmts = true ->
  upload self db =
    (Returned tt,
     let r := DBInfo.mk (next_id db) (short_name self) (source self) (name self) in
     {| db_info := db_info db ++ [r];
        raw_statements :=
          raw_statements db ++ flat_map (stmt_rows (Some (next_id db))) stmts;
        next_id := (next_id db + 1)%Z;
        journal := journal db ++
          [DidSelectOne (short_name self); DidInsert r; DidGetStatements;
           DidInsertDbStmts (Some (next_id db)) (length stmts)] |}).
Proof.
  intros Hr Hfetch Hvalid Hsingle. unfold upload. run.
  rewrite (check_reference_absent _ true _ Hr).
  unfold _get_statements. run. rewrite Hfetch. simpl.
  rewrite (validate_all_valid _ _ Hvalid).
  unfold insert_db_stmts. run. rewrite Hsingle. simpl.
  by rewrite <- !(assoc (++)).
Qed.

Lemma registration_inserted self db :
  registration self db = None ->
  registration self
    {| db_info := db_info db ++
         [DBInfo.mk (next_id db) (short_name self) (source self) (name self)];
       raw_statements := raw_statements db;
       next_id := (next_id db + 1)%Z;
       journal := journal db |}
  = Some (DBInfo.mk (next_id db) (short_name self) (source self) (name self)).
Proof.
  intros Hr. unfold registration in *. simpl.
  rewrite (find_app_none _ _ _ Hr). simpl. by rewrite String.eqb_refl.
Qed.

Lemma single_evidence_filter (p : Statement -> bool) stmts :
  single_evidence stmts = true -> single_evidence (List.filter p stmts) = true.
Proof.
  unfold single_evidence. rewrite !forallb_forall.
  intros Hall s Hs. apply filter_In in Hs as [Hs _]. by apply Hall.
Qed.

Lemma filter_new_single keys stmts :
  single_evidence stmts = true ->
  filter_new keys stmts = Returned (List.filter (is_new keys) stmts).
Proof.
  unfold single_evidence.
  induction stmts as [|s stmts IH]; simpl; [done|].
  intros [Hs Hall]%andb_prop. rewrite (IH Hall). unfold is_new, stmt_key.
  apply Nat.eqb_eq in Hs. destruct (evidence s) as [|ev evs]; [done|].
  by destruct (bool_decide _).
Qed.

(** X5. After [_check_reference] with [can_create=True] the store holds a
    registration under the manager's short name; it carries the manager's
    source, and its identifier is the value returned. *)
Theorem check_reference_registers self db :
  let run := _check_reference self true db in
  exists r,
    run.1 = Returned (Some (DBInfo.id r)) /\
    registration self run.2 = Some r /\
    DBInfo.db_name r = short_name self /\
    DBInfo.source_api r = source self.
Proof.
  simpl. destruct (registration self db) as [r0|] eqn:Hr.
  - rewrite (check_reference_checked _ _ _ _ Hr). simpl.
    exists (registered_row self r0). split; [done|].
    split; [by apply registration_checked|].
    split; [by apply registration_name in Hr|done].
  - rewrite (check_reference_absent _ _ _ Hr). simpl.
    exists (DBInfo.mk (next_id db) (short_name self) (source self) (name self)).
    split; [done|]. split; [|done].
    unfold registration in *. simpl.
    rewrite (find_app_none _ _ _ Hr). simpl. by rewrite String.eqb_refl.
Qed.

(** X6. [_check_reference] leaves the other knowledge bases alone: the
    registration found under any other name is the one found before, and no
    statement row changes. *)
Theorem check_reference_isolation self can_create db n :
  n <> short_name self ->
  let db' := (_check_reference self can_create db).2 in
  find (fun r => String.eqb (DBInfo.db_name r) n) (db_info db')
    = find (fun r => String.eqb (DBInfo.db_name r) n) (db_info db) /\
  raw_statements db' = raw_statements db.
Proof.
  intros Hne. simpl. destruct (registration self db) as [r|] eqn:Hr.
  - rewrite (check_reference_checked _ _ _ _ Hr). simpl.
    split; [|apply raw_statements_checked].
    unfold checked. destruct (String.eqb _ _); simpl; [done|].
    apply find_overwrite_other. by rewrite (registration_name _ _ _ Hr).
  - rewrite (check_reference_absent _ _ _ Hr).
    destruct can_create; simpl; [|done]. split; [|done].
    apply find_app_other. simpl. apply String.eqb_neq. congruence.
Qed.

(** X7. When every fetched statement is valid and carries exactly one
    evidence record, [upload] returns and has appended one row per fetched
    statement, in fetch order, under the identifier of the manager's
    registration. *)
Theorem upload_persists_batch self db stmts :
  fetched self = Returned stmts ->
  Forall (fun s => valid_statement s = true) stmts ->
  single_evidence stmts = true ->
  exists r,
    (upload self db).1 = Returned tt /\
    registration self (upload self db).2 = Some r /\
    raw_statements (upload self db).2
      = raw_statements db ++ flat_map (stmt_rows (Some (DBInfo.id r))) stmts.
Proof.
  intros Hfetch Hvalid Hsingle. destruct (registration self db) as [r0|] eqn:Hr.
  - rewrite (upload_present _ _ _ _ Hr Hfetch Hvalid Hsingle). simpl.
    exists (registered_row self r0). split; [done|].
    split; [by apply registration_checked|].
    by rewrite raw_statements_checked.
  - rewrite (upload_absent _ _ _ Hr Hfetch Hvalid Hsingle). simpl.
    exists (DBInfo.mk (next_id db) (short_name self) (source self) (name self)).
    split; [done|]. split; [|done].
    unfold registration in *. simpl.
    rewrite (find_app_none _ _ _ Hr). simpl. by rewrite String.eqb_refl.
Qed.

(** X8. [upload] does not look at what is stored: run a second time, it
    appends the same rows again, under the same identifier. *)
Theorem upload_twice_duplicates self db stmts :
  fetched self = Returned stmts ->
  Forall (fun s => valid_statement s = true) stmts ->
  single_evidence stmts = true ->
  exists dbid,
    let rows := flat_map (stmt_rows (Some dbid)) stmts in
    (upload self (upload self db).2).1 = Returned tt /\
    raw_statements (upload self (upload self db).2).2
      = raw_statements db ++ rows ++ rows.
Proof.
  intros Hfetch Hvalid Hsingle. destruct (registration self db) as [r0|] eqn:Hr.
  - rewrite (upload_present _ _ _ _ Hr Hfetch Hvalid Hsingle). simpl.
    erewrite upload_present; try done.
    2:{ rewrite <- (registration_checked _ _ _ Hr).
        by apply registration_db_info. }
    simpl. exists (DBInfo.id r0). split; [done|].
    rewrite checked_registered_row. simpl.
    by rewrite raw_statements_checked, <- (assoc (++)).
  - rewrite (upload_absent _ _ _ Hr Hfetch Hvalid Hsingle). simpl.
    erewrite upload_present; try done.
    2:{ rewrite <- (registration_inserted _ _ Hr).
        by apply registration_db_info. }
    simpl. exists (next_id db). split; [done|].
    unfold checked. simpl. rewrite String.eqb_refl. simpl.
    by rewrite <- (assoc (++)).
Qed.

End ManagerFurther.

Section UpdateFurther.
Context `{Library}.

Lemma kept_stmts_single self dbid db stmts :
  fetched self = Returned stmts ->
  single_evidence stmts = true ->
  kept_stmts self dbid db
  = Returned (List.filter (is_new (persisted_keys dbid db)) stmts).
Proof.
  intros Hfetch Hsingle. unfold kept_stmts. rewrite Hfetch.
  by apply filter_new_single.
Qed.

(** X9. For a registered manager whose adapter returns statements with one
    evidence record each, [update] returns and appends, in fetch order, one
    row for every fetched statement whose key is not persisted under the
    registration: whether the statement is valid is not looked at, and a
    statement fetched twice is appended twice. *)
Theorem update_persists_new self db r stmts :
  registration self db = Some r ->
  fetched self = Returned stmts ->
  single_evidence stmts = true ->
  (update self db).1 = Returned tt /\
  raw_statements (update self db).2
    = raw_statements db ++
      flat_map (stmt_rows (Some (DBInfo.id r)))
        (List.filter (is_new (persisted_keys (DBInfo.id r) db)) stmts).
Proof.
  intros Hr Hfetch Hsingle. rewrite (update_present _ _ _ Hr). simpl.
  rewrite (kept_stmts_single _ _ _ _ Hfetch Hsingle).
  rewrite (single_evidence_filter _ _ Hsingle). simpl.
  by rewrite raw_statements_checked.
Qed.

(** X10. [update] commits a changed source before it fetches: when the
    stored [source_api] differs from the manager's source and the adapter
    then raises, the exception propagates, no statement row changes, and the
    registration already carries the new source. *)
Theorem update_fetch_failure_keeps_source self db r e :
  registration self db = Some r ->
  DBInfo.source_api r <> source self ->
  fetched self = Raised e ->
  (update self db).1 = Raised e /\
  raw_statements (update self db).2 = raw_statements db /\
  registration self (update self db).2 = Some (registered_row self r) /\
  journal (update self db).2 = journal db ++
    [DidSelectOne (short_name self);
     DidCommit ("Could not update source_api for " +:+ DBInfo.db_name r +:+ ".");
     DidSelectAll (DBInfo.id r); DidGetStatements].
Proof.
  intros Hr Hsrc Hfetch. rewrite (update_present _ _ _ Hr). simpl.
  unfold kept_stmts. rewrite Hfetch. simpl.
  split; [done|]. split; [apply raw_statements_checked|].
  split.
  - rewrite <- (registration_checked _ _ _ Hr). by apply registration_db_info.
  - unfold checked. destruct (String.eqb _ _) eqn:E.
    + by apply String.eqb_eq in E.
    + simpl. by rewrite <- (assoc (++)).
Qed.

(** X11. A first [upload] that fails on an invalid statement has already
    inserted the registration, so [update] no longer refuses to run; it then
    persists every fetched statement with a new key, the invalid one
    included. *)
Theorem update_after_failed_upload self db stmts :
  registration self db = None ->
  fetched self = Returned stmts ->
  Exists (fun s => valid_statement s = false) stmts ->
  single_evidence stmts = true ->
  let db1 := (upload self db).2 in
  (upload self db).1 = Raised InvalidStatement /\
  (update self db1).1 = Returned tt /\
  raw_statements (update self db1).2
    = raw_statements db ++
      flat_map (stmt_rows (Some (next_id db)))
        (List.filter (is_new (persisted_keys (next_id db) db)) stmts).
Proof.
  intros Hr Hfetch Hbad Hsingle. simpl.
  assert (upload self db =
    (Raised InvalidStatement,
     let r := DBInfo.mk (next_id db) (short_name self) (source self) (name self) in
     {| db_info := db_info db ++ [r];
        raw_statements := raw_statements db;
        next_id := (next_id db + 1)%Z;
        journal := journal db ++
          [DidSelectOne (short_name self); DidInsert r; DidGetStatements] |}))
    as ->.
  { unfold upload. run. rewrite (check_reference_absent _ true _ Hr).
    unfold _get_statements. run. rewrite Hfetch. simpl.
    rewrite (validate_all_invalid _ _ Hbad). by rewrite <- (assoc (++)). }
  simpl. split; [done|].
  erewrite update_present.
  2:{ rewrite <- (registration_inserted _ _ Hr). by apply registration_db_info. }
  simpl.
  erewrite (kept_stmts_raw _ _ _ db) by done.
  rewrite (kept_stmts_single _ _ _ _ Hfetch Hsingle).
  rewrite (single_evidence_filter _ _ Hsingle). simpl. split; [done|].
  unfold checked. simpl. by rewrite String.eqb_refl.
Qed.

Lemma run_managers_app mode before after db :
  run_managers mode (before ++ after) db =
    match run_managers mode before db with
    | (Finished, db1) => run_managers mode after db1
    | stopped => stopped
    end.
Proof.
  revert db. induction before as [|kbm before IH]; intros db; simpl; [done|].
  destruct (String.eqb mode "upload").
  - destruct (upload kbm db) as [[[]|e] db']; [apply IH|done].
  - destruct (String.eqb mode "update"); [|done].
    destruct (update kbm db) as [[[]|e] db']; [apply IH|done].
Qed.

(** X12. With a mode that is neither ['upload'] nor ['update'] the script
    exits with code 1 at the first manager and the store is as it was; with
    no manager to run there is nothing that looks at the mode, and the
    script ends normally. *)
Theorem run_managers_invalid_mode mode db :
  mode <> "upload" -> mode <> "update" ->
  run_managers mode [] db = (Finished, db) /\
  forall kbm rest, run_managers mode (kbm :: rest) db = (Exited 1, db).
Proof.
  intros Hup Hud. split; [done|]. intros kbm rest. simpl.
  apply String.eqb_neq in Hup, Hud. by rewrite Hup, Hud.
Qed.

(** X13. Nothing catches the exception of a manager: when the managers
    before it have run and one raises, the script ends there with that
    exception, and the store is the one that manager left; the managers after
    it are not run. *)
Theorem run_managers_stops_at_failure mode before kbm after db db1 db2 e :
  run_managers mode before db = (Finished, db1) ->
  run_managers mode [kbm] db1 = (Uncaught e, db2) ->
  run_managers mode (before ++ kbm :: after) db = (Uncaught e, db2).
Proof.
  intros Hbefore Hkbm.
  rewrite run_managers_app, Hbefore.
  change (kbm :: after) with ([kbm] ++ after).
  by rewrite run_managers_app, Hkbm.
Qed.

End UpdateFurther.

(** *** The further properties on concrete stores *)

Lemma check_reference_isolation_witness :
  let db' := (_check_reference (tas_with "biopax" (Returned [])) true
                (mkDB [DBInfo.mk 1 "tas" "tas" "TAS"; DBInfo.mk 2 "hprd" "hprd" "HPRD"]
                      [] 3 [])).2 in
  find (fun r => String.eqb (DBInfo.db_name r) "hprd") (db_info db')
    = Some (DBInfo.mk 2 "hprd" "hprd" "HPRD") /\
  raw_statements db' = [].
Proof.
  apply (check_reference_isolation (tas_with "biopax" (Returned [])) true
           (mkDB [DBInfo.mk 1 "tas" "tas" "TAS"; DBInfo.mk 2 "hprd" "hprd" "HPRD"]
                 [] 3 []) "hprd").
  discriminate.
Defined.

Lemma upload_persists_batch_witness :
  let self := tas_with "tas" (Returned [stmt_one; stmt_other]) in
  exists r,
    (@upload reference self empty_db).1 = Returned tt /\
    registration self (@upload reference self empty_db).2 = Some r /\
    raw_statements (@upload reference self empty_db).2
      = raw_statements empty_db ++
        flat_map (@stmt_rows reference (Some (DBInfo.id r))) [stmt_one; stmt_other].
Proof.
  apply (@upload_persists_batch reference
           (tas_with "tas" (Returned [stmt_one; stmt_other])) empty_db).
  - reflexivity.
  - repeat constructor.
  - reflexivity.
Defined.

Lemma upload_twice_duplicates_witness :
  let self := tas_with "tas" (Returned [stmt_one]) in
  exists dbid,
    let rows := flat_map (@stmt_rows reference (Some dbid)) [stmt_one] in
    (@upload reference self (@upload reference self empty_db).2).1 = Returned tt /\
    raw_statements (@upload reference self (@upload reference self empty_db).2).2
      = raw_statements empty_db ++ rows ++ rows.
Proof.
  apply (@upload_twice_duplicates reference
           (tas_with "tas" (Returned [stmt_one])) empty_db).
  - reflexivity.
  - repeat constructor.
  - reflexivity.
Defined.

Lemma update_persists_new_witness :
  let self := tas_with "tas" (Returned [stmt_one; stmt_invalid; stmt_other; stmt_other]) in
  (@update reference self tas_db).1 = Returned tt /\
  raw_statements (@update reference self tas_db).2
    = raw_statements tas_db ++
      flat_map (@stmt_rows reference (Some 1%Z))
        (List.filter (@is_new reference (persisted_keys 1 tas_db))
           [stmt_one; stmt_invalid; stmt_other; stmt_other]).
Proof.
  apply (@update_persists_new reference
           (tas_with "tas" (Returned [stmt_one; stmt_invalid; stmt_other; stmt_other]))
           tas_db (DBInfo.mk 1 "tas" "tas" "TAS")); reflexivity.
Defined.

Lemma update_fetch_failure_witness :
  let self := tas_with "biopax" (Raised (ExternalError "s3")) in
  (@update reference self tas_db).1 = Raised (ExternalError "s3") /\
  raw_statements (@update reference self tas_db).2 = raw_statements tas_db /\
  registration self (@update reference self tas_db).2
    = Some (DBInfo.mk 1 "tas" "biopax" "TAS") /\
  journal (@update reference self tas_db).2 =
    [DidSelectOne "tas"; DidCommit "Could not update source_api for tas.";
     DidSelectAll 1; DidGetStatements].
Proof.
  apply (@update_fetch_failure_keeps_source reference
           (tas_with "biopax" (Raised (ExternalError "s3"))) tas_db
           (DBInfo.mk 1 "tas" "tas" "TAS")).
  - reflexivity.
  - discriminate.
  - reflexivity.
Defined.

Lemma update_after_failed_upload_witness :
  let self := tas_with "tas" (Returned [stmt_one; stmt_invalid]) in
  let db1 := (@upload reference self empty_db).2 in
  (@upload reference self empty_db).1 = Raised InvalidStatement /\
  (@update reference self db1).1 = Returned tt /\
  raw_statements (@update reference self db1).2
    = raw_statements empty_db ++
      flat_map (@stmt_rows reference (Some 1%Z))
        (List.filter (@is_new reference (persisted_keys 1 empty_db))
           [stmt_one; stmt_invalid]).
Proof.
  apply (@update_after_failed_upload reference
           (tas_with "tas" (Returned [stmt_one; stmt_invalid])) empty_db).
  - reflexivity.
  - reflexivity.
  - apply Exists_cons_tl, Exists_cons_hd. reflexivity.
  - reflexivity.
Defined.

Lemma run_managers_invalid_mode_witness :
  @run_managers reference "frobnicate" [] tas_db = (Finished, tas_db) /\
  forall kbm rest,
    @run_managers reference "frobnicate" (kbm :: rest) tas_db = (Exited 1, tas_db).
Proof.
  apply (@run_managers_invalid_mode reference "frobnicate" tas_db); discriminate.
Defined.

Lemma run_managers_stops_witness :
  @run_managers reference "upload"
    ([idle_manager] ++ failing_manager :: [tas_with "tas" (Returned [stmt_one])])
    empty_db
  = (Uncaught (ExternalError "process_from_web"),
     (@upload reference failing_manager (@upload reference idle_manager empty_db).2).2).
Proof.
  apply (@run_managers_stops_at_failure reference "upload" [idle_manager]
           failing_manager [tas_with "tas" (Returned [stmt_one])] empty_db
           (@upload reference idle_manager empty_db).2); reflexivity.
Defined.

(** ** Properties of the Pathway Commons filter *)

Section PathwayCommonsProperties.
Context `{Library}.
Variable annotations : Evidence -> gmap string string.

Abbreviation tally counts ssid := (default 0 (counts !! ssid)).

Lemma expanded_records (S : list Statement) :
  flat_map evidence (_expanded S) = flat_map evidence S.
Proof.
  induction S as [|stmt S IH]; simpl; [done|].
  rewrite flat_map_app, IH. f_equal.
  destruct (1 <? length (evidence stmt)).
  - apply expanded_copies_records.
  - simpl. apply app_nil_r.
Qed.

Lemma expanded_single (S : list Statement) :
  Forall (fun s => evidence s <> []) S ->
  Forall (fun t => length (evidence t) = 1) (_expanded S).
Proof.
  induction 1 as [|stmt S Hs _ IH]; simpl; [constructor|].
  apply Forall_app. split; [|done].
  destruct (1 <? length (evidence stmt)) eqn:Hk.
  - apply expanded_copies_evidence.
  - apply Nat.ltb_ge in Hk. constructor; [|constructor].
    destruct (evidence stmt) as [|ev [|]]; simpl in *; [done|done|lia].
Qed.

Lemma tally_count_one ssid ssid' counts :
  tally (count_one ssid counts) ssid'
  = tally counts ssid' + (if decide (ssid = ssid') then 1 else 0).
Proof.
  unfold count_one. destruct (decide (ssid = ssid')) as [->|Hne].
  - by rewrite lookup_insert_eq.
  - rewrite lookup_insert_ne by done. lia.
Qed.

Lemma included_kept stmts counts kept counts' :
  included annotations stmts counts = (inr kept, counts') ->
  sublist kept stmts /\
  Forall (fun s => exists ev ssid,
            evidence s = [ev] /\
            annotations ev !! "source_sub_id" = Some ssid /\
            ssid ∉ skips) kept /\
  forall ssid,
    tally counts' ssid
    = tally counts ssid + length (with_sub_id annotations ssid stmts).
Proof.
  revert counts kept counts'.
  induction stmts as [|s stmts IH]; simpl; intros counts kept counts'.
  - intros [= <- <-]. split; [constructor|]. split; [constructor|].
    intros ssid. unfold with_sub_id. simpl. lia.
  - unfold _can_include.
    destruct (evidence s) as [|ev [|ev' evs]] eqn:Hev; [done| |done].
    destruct (annotations ev !! "source_sub_id") as [ssid0|] eqn:Hann; [|done].
    destruct (included annotations stmts (count_one ssid0 counts))
      as [[e|kept0] counts0] eqn:Hrest; [done|].
    intros [= <- <-]. destruct (IH _ _ _ Hrest) as (Hsub & Hall & Hcount).
    split; [|split].
    + case_bool_decide; by constructor.
    + case_bool_decide; [|done]. constructor; [|done]. by exists ev, ssid0.
    + intros ssid. rewrite Hcount, tally_count_one.
      unfold with_sub_id. simpl. rewrite Hev. simpl.
      rewrite filter_cons. destruct (decide (ssid0 = ssid)) as [->|Hne].
      * rewrite decide_True by done. simpl. lia.
      * rewrite decide_False by congruence. lia.
Qed.

(** X14. What the Pathway Commons filter keeps is a subsequence of the
    expanded statements, each with exactly one evidence record whose
    ['source_sub_id'] is not among the skipped sources. *)
Theorem pc_filtered_stmts_kept stmts counts kept counts' :
  pc_filtered_stmts annotations stmts counts = (inr kept, counts') ->
  sublist kept (_expanded stmts) /\
  Forall (fun s => exists ev ssid,
            evidence s = [ev] /\
            annotations ev !! "source_sub_id" = Some ssid /\
            ssid ∉ skips) kept.
Proof.
  intros Hrun. apply included_kept in Hrun as (Hsub & Hall & _). by split.
Qed.

(** X15. When the Pathway Commons filter returns, [self.counts] has grown,
    for every sub-source, by the number of evidence records of the input that
    carry it: the skipped sources are counted like the others. *)
Theorem pc_filtered_stmts_counts stmts counts kept counts' ssid :
  pc_filtered_stmts annotations stmts counts = (inr kept, counts') ->
  tally counts' ssid
  = tally counts ssid + length (with_sub_id annotations ssid stmts).
Proof.
  intros Hrun. apply included_kept in Hrun as (_ & _ & Hcount).
  rewrite Hcount. unfold with_sub_id. by rewrite expanded_records.
Qed.

Lemma included_all_single stmts counts :
  (forall ev, is_Some (annotations ev !! "source_sub_id")) ->
  Forall (fun t => length (evidence t) = 1) stmts ->
  exists kept counts', included annotations stmts counts = (inr kept, counts').
Proof.
  intros Hann Hall. revert counts.
  induction Hall as [|s stmts Hs _ IH]; intros counts; simpl; [by eexists _, _|].
  unfold _can_include.
  destruct (evidence s) as [|ev [|ev' evs]]; simpl in Hs; [done| |done].
  destruct (Hann ev) as [ssid ->].
  destruct (IH (count_one ssid counts)) as (kept & counts' & ->).
  by eexists _, _.
Qed.

Lemma included_zero_evidence stmts counts :
  (forall ev, is_Some (annotations ev !! "source_sub_id")) ->
  Forall (fun t => length (evidence t) <= 1) stmts ->
  Exists (fun s => evidence s = []) stmts ->
  (included annotations stmts counts).1 = inl (AssertionError 0).
Proof.
  intros Hann Hall Hex. revert counts.
  induction Hex as [s stmts Hs|s stmts _ IH]; intros counts; simpl;
    unfold _can_include.
  - by rewrite Hs.
  - apply Forall_cons in Hall as [Hs Hall].
    destruct (evidence s) as [|ev [|ev' evs]]; simpl in Hs; [done| |lia].
    destruct (Hann ev) as [ssid ->].
    specialize (IH Hall (count_one ssid counts)).
    destruct (included annotations stmts (count_one ssid counts)) as [[e|kept] c];
      simpl in *; [done|discriminate].
Qed.

(** X16. Where every evidence record is annotated with its sub-source, the
    Pathway Commons filter fails exactly on an input that holds a statement
    without evidence, and then with the assertion error for zero evidence
    records; otherwise it returns. Statements with several evidence records
    never trip the assertion, since they are expanded first. *)
Theorem pc_filtered_stmts_assertion stmts counts :
  (forall ev, is_Some (annotations ev !! "source_sub_id")) ->
  (Exists (fun s => evidence s = []) stmts ->
   (pc_filtered_stmts annotations stmts counts).1 = inl (AssertionError 0)) /\
  (Forall (fun s => evidence s <> []) stmts ->
   exists kept, (pc_filtered_stmts annotations stmts counts).1 = inr kept).
Proof.
  intros Hann. unfold pc_filtered_stmts. split.
  - intros Hex. apply included_zero_evidence; [done|apply expanded_at_most_one|].
    apply Exists_exists in Hex as (s & Hs & He).
    apply Exists_exists. exists s. split; [|done].
    by apply expanded_keeps_zero_evidence.
  - intros Hall.
    destruct (included_all_single (_expanded stmts) counts Hann
                (expanded_single _ Hall)) as (kept & counts' & ->).
    by exists kept.
Qed.

End PathwayCommonsProperties.

Lemma pc_filtered_stmts_kept_witness :
  let run := @pc_filtered_stmts reference sub_id_annotations
               [stmt_two; stmt_one] ∅ in
  exists kept,
    run.1 = inr kept /\
    sublist kept (@_expanded reference [stmt_two; stmt_one]) /\
    Forall (fun s => exists ev ssid,
              evidence s = [ev] /\
              sub_id_annotations ev !! "source_sub_id" = Some ssid /\
              ssid ∉ skips) kept.
Proof.
  destruct (@pc_filtered_stmts reference sub_id_annotations [stmt_two; stmt_one] ∅)
    as [[e|kept] counts'] eqn:Hrun; [vm_compute in Hrun; discriminate|].
  exists kept. split; [reflexivity|].
  exact (@pc_filtered_stmts_kept reference sub_id_annotations _ _ _ _ Hrun).
Defined.

Lemma pc_filtered_stmts_counts_witness :
  let run := @pc_filtered_stmts reference sub_id_annotations
               [stmt_two; stmt_one] ∅ in
  exists kept,
    run.1 = inr kept /\
    default 0 (run.2 !! "a")
    = default 0 ((∅ : gmap string nat) !! "a")
      + length (with_sub_id sub_id_annotations "a" [stmt_two; stmt_one]).
Proof.
  destruct (@pc_filtered_stmts reference sub_id_annotations [stmt_two; stmt_one] ∅)
    as [[e|kept] counts'] eqn:Hrun; [vm_compute in Hrun; discriminate|].
  exists kept. split; [reflexivity|].
  exact (@pc_filtered_stmts_counts reference sub_id_annotations _ _ _ _ "a" Hrun).
Defined.

Lemma pc_filtered_stmts_assertion_witness :
  (@pc_filtered_stmts reference sub_id_annotations [stmt_two; stmt_none] ∅).1
  = inl (AssertionError 0).
Proof.
  apply (@pc_filtered_stmts_assertion reference sub_id_annotations).
  - intros ev. eexists. apply lookup_singleton_eq.
  - apply Exists_cons_tl, Exists_cons_hd. reflexivity.
Defined.

(** ** Properties of [uncamel] and of the client's keyword arguments *)

Lemma lower_char_not_upper (c : ascii) : is_upper (lower_char c) = false.
Proof. by destruct c as [[] [] [] [] [] [] [] []]. Qed.

Lemma lower_char_underscore (c : ascii) :
  Ascii.eqb (lower_char c) "_" = Ascii.eqb c "_".
Proof. by destruct c as [[] [] [] [] [] [] [] []]. Qed.

Lemma lower_char_fixed (c : ascii) : is_upper c = false -> lower_char c = c.
Proof. unfold lower_char. by intros ->. Qed.

Lemma has_upper_lower (s : string) : has_upper (lower s) = false.
Proof.
  induction s as [|c s IH]; simpl; [done|].
  by rewrite lower_char_not_upper, IH.
Qed.

Lemma lower_fixed (s : string) : has_upper s = false -> lower s = s.
Proof.
  induction s as [|c s IH]; simpl; [done|].
  intros [Hc Hs]%orb_false_elim. by rewrite (lower_char_fixed _ Hc), (IH Hs).
Qed.

Lemma snake_ind (P : string -> Prop) :
  P EmptyString ->
  (forall a, P (String a EmptyString)) ->
  (forall a b rest, P rest -> P (String b rest) -> P (String a (String b rest))) ->
  forall s, P s.
Proof.
  intros Hnil Hone Htwo s.
  assert (P s /\ forall a, P (String a s)) as [Hs _]; [|done].
  induction s as [|b s [IHs IHb]]; [split; [done|apply Hone]|].
  split; [apply IHb|]. intros a. apply Htwo; [done|apply IHb].
Qed.

Lemma snake_fixed (s : string) : has_upper s = false -> snake s = s.
Proof.
  induction s as [| |a b rest IHrest IHtail] using snake_ind; [done..|].
  intros Hup. simpl in Hup. apply orb_false_elim in Hup as [Ha Hup].
  pose proof Hup as Hup'. apply orb_false_elim in Hup' as [Hb _].
  change (snake (String a (String b rest)))
    with (if is_lower a && is_upper b
          then String a (String "_" (String b (snake rest)))
          else String a (snake (String b rest))).
  rewrite Hb, andb_false_r. f_equal. apply IHtail. simpl. exact Hup.
Qed.

Lemma lower_without_underscores (s : string) :
  without_underscores (lower s) = lower (without_underscores s).
Proof.
  induction s as [|c s IH]; simpl; [done|].
  rewrite lower_char_underscore. destruct (Ascii.eqb c "_"); simpl; by rewrite IH.
Qed.

Lemma is_upper_not_underscore (c : ascii) :
  is_upper c = true -> Ascii.eqb c "_" = false.
Proof. by destruct c as [[] [] [] [] [] [] [] []]. Qed.

Lemma snake_without_underscores (s : string) :
  without_underscores (snake s) = without_underscores s.
Proof.
  induction s as [| |a b rest IHrest IHtail] using snake_ind; [done..|].
  change (snake (String a (String b rest)))
    with (if is_lower a && is_upper b
          then String a (String "_" (String b (snake rest)))
          else String a (snake (String b rest))).
  destruct (is_lower a && is_upper b) eqn:Hm.
  - apply andb_prop in Hm as [_ Hb]. simpl.
    rewrite (is_upper_not_underscore _ Hb), IHrest.
    by destruct (Ascii.eqb a "_").
  - change (without_underscores (String a (snake (String b rest))))
      with (if Ascii.eqb a "_" then without_underscores (snake (String b rest))
            else String a (without_underscores (snake (String b rest)))).
    rewrite IHtail. done.
Qed.

(** X17. The result of [uncamel] on an ASCII word holds no upper-case
    letter. *)
Theorem uncamel_no_upper (word : string) :
  is_ascii word -> has_upper (uncamel word) = false.
Proof. intros _. apply has_upper_lower. Qed.

(** X18. [uncamel] leaves an ASCII word as it is exactly when the word holds
    no upper-case letter; in particular it undoes nothing and applying it
    twice is applying it once. *)
Theorem uncamel_fixed_points (word : string) :
  is_ascii word ->
  (uncamel word = word <-> has_upper word = false) /\
  uncamel (uncamel word) = uncamel word.
Proof.
  intros _.
  assert (forall w, has_upper w = false -> uncamel w = w) as Hfix.
  { intros w Hw. unfold uncamel. by rewrite (snake_fixed _ Hw), (lower_fixed _ Hw). }
  split; [split|].
  - intros <-. apply has_upper_lower.
  - apply Hfix.
  - apply Hfix, has_upper_lower.
Qed.

(** X19. [uncamel] only lowers letters and adds underscores: with the
    underscores taken out, its result is the lower-cased word with its
    underscores taken out. *)
Theorem uncamel_letters (word : string) :
  is_ascii word ->
  without_underscores (uncamel word) = without_underscores (lower word).
Proof.
  intros _. unfold uncamel.
  by rewrite !lower_without_underscores, snake_without_underscores.
Qed.

Lemma credential_kwargs_from {V} (credentials : list (string * V))
    (kwargs0 : gmap string V) key v :
  foldl (fun kwargs kv =>
           if contains "expiration" (lower kv.1)
           then kwargs
           else <["aws_" +:+ uncamel kv.1 := kv.2]> kwargs)
        kwargs0 credentials !! key = Some v ->
  kwargs0 !! key = Some v \/
  exists k, (k, v) ∈ credentials /\
            key = "aws_" +:+ uncamel k /\
            contains "expiration" (lower k) = false.
Proof.
  revert kwargs0. induction credentials as [|[k0 v0] credentials IH];
    intros kwargs0; simpl; [by left|].
  intros Hkey. apply IH in Hkey as [Hkey|(k & Hin & Hk)].
  - destruct (contains "expiration" (lower k0)) eqn:Hexp; [by left|].
    destruct (decide ("aws_" +:+ uncamel k0 = key)) as [<-|Hne].
    + rewrite lookup_insert_eq in Hkey. injection Hkey as <-.
      right. exists k0. split; [by left|done].
    + rewrite lookup_insert_ne in Hkey by done. by left.
  - right. exists k. split; [by right|done].
Qed.

(** X20. Every keyword argument that [get_lambda_client] passes to
    [boto3.client] comes from a field of the credentials of the role it
    assumed, the role being the configured one under the caller's account;
    its name is ['aws_'] followed by the [uncamel]led field name, and no
    field whose name contains ['expiration'] in any letter case is passed. *)
Theorem lambda_client_kwargs_keys {V} (aws_role : option string)
    (ident : Identity) (assume_role : string -> outcome (list (string * V)))
    (kwargs : gmap string V) (key : string) (v : V) :
  lambda_client_kwargs aws_role ident assume_role = Returned kwargs ->
  kwargs !! key = Some v ->
  exists role credentials k,
    aws_role = Some role /\
    assume_role ("arn:aws:iam::" +:+ Account ident +:+ ":role/" +:+ role)
      = Returned credentials /\
    (k, v) ∈ credentials /\
    key = "aws_" +:+ uncamel k /\
    contains "expiration" (lower k) = false.
Proof.
  unfold lambda_client_kwargs. intros Hrun Hkey.
  destruct aws_role as [role|]; [|by injection Hrun as <-].
  destruct (negb (String.eqb role EmptyString) && negb (endswith (Arn ident) role));
    [|by injection Hrun as <-].
  destruct (assume_role _) as [credentials|e] eqn:Hassume; [|done].
  injection Hrun as <-. unfold credential_kwargs in Hkey.
  apply credential_kwargs_from in Hkey as [Hkey|(k & Hin & Hk & Hexp)]; [done|].
  by exists role, credentials, k.
Qed.

Lemma uncamel_no_upper_witness : has_upper (uncamel "SecretAccessKey") = false.
Proof. apply uncamel_no_upper. unfold is_ascii. simpl. repeat constructor. Defined.

Lemma uncamel_fixed_points_witness :
  (uncamel "session_token" = "session_token" <-> has_upper "session_token" = false) /\
  uncamel (uncamel "session_token") = uncamel "session_token".
Proof.
  apply uncamel_fixed_points. unfold is_ascii. simpl. repeat constructor.
Defined.

Lemma uncamel_letters_witness :
  without_underscores (uncamel "AccessKeyId") = without_underscores (lower "AccessKeyId").
Proof. apply uncamel_letters. unfold is_ascii. simpl. repeat constructor. Defined.

Lemma lambda_client_kwargs_keys_witness :
  exists role credentials k,
    Some "indra-db" = Some role /\
    (fun _ => Returned sts_credentials)
      ("arn:aws:iam::" +:+ "123456789012" +:+ ":role/" +:+ role)
      = Returned credentials /\
    (k, "token") ∈ credentials /\
    "aws_session_token" = "aws_" +:+ uncamel k /\
    contains "expiration" (lower k) = false.
Proof.
  apply (lambda_client_kwargs_keys (Some "indra-db")
           (mkIdentity "arn:aws:iam::123456789012:user/me" "123456789012")
           (fun _ => Returned sts_credentials)
           (credential_kwargs sts_credentials) "aws_session_token" "token").
  - reflexivity.
  - vm_compute. reflexivity.
Defined.

(** The credentials of an assumed role become the three keyword arguments
    of [boto3.client]; the expiry is left out. *)
Example sts_credentials_kwargs :
  credential_kwargs sts_credentials
  = {[ "aws_access_key_id" := "AKIA";
       "aws_secret_access_key" := "secret";
       "aws_session_token" := "token" ]}.
Proof. vm_compute. reflexivity. Qed.

(** ** Further properties of the snapshot refresh cycle *)

(** X21. A failure while the readonly schema is generated or dumped comes
    before the cutover: the environment of the serving function and the
    readonly database are as they were, and neither the Lambda client nor
    [load_dump] was called. *)
Theorem build_failure_before_cutover (o : Surroundings) (args : Args) (w : World) :
  raises o AtGenerateReadonly = true \/ raises o AtDumpReadonly = true ->
  lambda_env (main o args w).2 = lambda_env w /\
  loaded (main o args w).2 = loaded w /\
  exists calls,
    trace (main o args w).2 = trace w ++ calls /\
    (AtGetLambdaClient Entering ∉ calls) /\
    (AtLoadDump ∉ calls).
Proof.
  intros [Hgen|Hdump]; unfold_main.
  - rewrite Hgen.
    in_program_order o args w;
      rewrite <- ?app_assoc; simpl;
      (split; [reflexivity|]); (split; [reflexivity|]);
      (eexists; split; [reflexivity|]);
      split; by apply not_elem_of_decide.
  - rewrite Hdump.
    in_program_order o args w;
      rewrite <- ?app_assoc; simpl;
      (split; [reflexivity|]); (split; [reflexivity|]);
      (eexists; split; [reflexivity|]);
      split; by apply not_elem_of_decide.
Qed.

Lemma elem_of_decide (here : site) (calls : list site) :
  bool_decide (here ∈ calls) = true -> here ∈ calls.
Proof. apply bool_decide_eq_true. Qed.

(** X22. [load_dump] is called only under the redirect: in a run that
    reaches it, the configuration update of [__enter__] was called before and
    returned, the serving function ends with the override that names the
    principal database, and the run ends in the [TypeError] of the call of
    [__exit__]. *)
Theorem load_only_under_redirect (o : Surroundings) (args : Args) (w : World) :
  exists calls,
    trace (main o args w).2 = trace w ++ calls /\
    (AtLoadDump ∈ calls ->
     AtUpdateConfiguration Entering ∈ calls /\
     raises o (AtUpdateConfiguration Entering) = false /\
     lambda_env (main o args w).2 = [("INDRAROOVERRIDE", principal_url o)] /\
     (main o args w).1 = Raised TypeError).
Proof.
  unfold_main.
  in_program_order o args w;
    rewrite <- ?app_assoc; simpl;
    (eexists; split; [reflexivity|]); intros Hin;
    first [ exfalso; revert Hin; by apply not_elem_of_decide
          | split; [by apply elem_of_decide|done] ].
Qed.

(** X23. No run of [main] returns: it ends in an exception whatever the
    surroundings do, and its calls include none of those that follow the
    body of the [with] block ([__exit__]'s two, closing and grabbing the
    session, the final [drop_schema]). *)
Theorem main_never_returns (o : Surroundings) (args : Args) (w : World) :
  exists e calls,
    (main o args w).1 = Raised e /\
    trace (main o args w).2 = trace w ++ calls /\
    Forall (fun here => here ∉ calls)
      [AtGetLambdaClient Exiting; AtUpdateConfiguration Exiting;
       AtSessionClose; AtGrabSession; AtDropReadonly].
Proof.
  unfold_main.
  in_program_order o args w;
    rewrite <- ?app_assoc; simpl;
    (eexists _, _; split; [reflexivity|]; split; [reflexivity|]);
    repeat (constructor; [by apply not_elem_of_decide|]); constructor.
Qed.

(** X24. When no external call raises and the client accepts the call of
    [_set_lambda_env], the dump is loaded into the readonly database, and
    the run still ends in [TypeError]: the serving function keeps the
    override and the ['readonly'] schema stays on the principal database. *)
Theorem main_all_well (o : Surroundings) (args : Args) (w : World) :
  (forall here, raises o here = false) ->
  "update_function_configureation" ∈ configuring_methods o ->
  (main o args w).1 = Raised TypeError /\
  loaded (main o args w).2 = Some (dump_path o) /\
  lambda_env (main o args w).2 = [("INDRAROOVERRIDE", principal_url o)] /\
  "readonly" ∈ schemas (main o args w).2.
Proof.
  intros Hwell Hname.
  assert (bool_decide ("update_function_configureation" ∈ configuring_methods o)
          = true) as Hd by (by apply bool_decide_eq_true_2).
  unfold_main. rewrite !Hwell, Hd. simpl.
  destruct (delete_existing args); simpl;
    on_decision ("readonly" ∈ schemas w);
    (split; [reflexivity|]); (split; [reflexivity|]); (split; [reflexivity|]);
    first [ apply generated_schema
          | by eapply bool_decide_eq_true_1
          | apply elem_of_app; right; by left ].
Qed.

(** X25. With a client that does not offer the misspelt method name that
    [_set_lambda_env] calls, the cutover never happens: the environment of
    the serving function and the readonly database stay as they were, and
    when no external call raises the run ends in the [AttributeError] of
    [__enter__]. *)
Theorem misspelt_name_blocks_refresh (o : Surroundings) (args : Args) (w : World) :
  "update_function_configureation" ∉ configuring_methods o ->
  lambda_env (main o args w).2 = lambda_env w /\
  loaded (main o args w).2 = loaded w /\
  ((forall here, raises o here = false) ->
   (main o args w).1 = Raised (AttributeError "update_function_configureation")).
Proof.
  intros Hname.
  assert (bool_decide ("update_function_configureation" ∈ configuring_methods o)
          = false) as Hd by (by apply bool_decide_eq_false_2).
  unfold_main. rewrite Hd. simpl.
  in_program_order o args w;
    (split; [reflexivity|]); (split; [reflexivity|]);
    intros Hwell;
    first [ reflexivity
          | match goal with
            | E : raises o ?here = true |- _ => by rewrite Hwell in E
            end ].
Qed.

Lemma build_failure_before_cutover_witness :
  lambda_env (main generation_fails delete_existing_args world_with_readonly).2
    = lambda_env world_with_readonly /\
  loaded (main generation_fails delete_existing_args world_with_readonly).2
    = loaded world_with_readonly /\
  exists calls,
    trace (main generation_fails delete_existing_args world_with_readonly).2
      = trace world_with_readonly ++ calls /\
    (AtGetLambdaClient Entering ∉ calls) /\
    (AtLoadDump ∉ calls).
Proof.
  apply (build_failure_before_cutover generation_fails delete_existing_args
           world_with_readonly).
  left. reflexivity.
Defined.

Lemma main_all_well_witness :
  (main stub_client_all_well delete_existing_args world_with_readonly).1
    = Raised TypeError /\
  loaded (main stub_client_all_well delete_existing_args world_with_readonly).2
    = Some "/tmp/readonly.dump" /\
  lambda_env (main stub_client_all_well delete_existing_args world_with_readonly).2
    = [("INDRAROOVERRIDE", "postgresql://principal/indradb")] /\
  "readonly" ∈ schemas (main stub_client_all_well delete_existing_args world_with_readonly).2.
Proof.
  apply (main_all_well stub_client_all_well delete_existing_args world_with_readonly).
  - intros here. reflexivity.
  - apply elem_of_cons. by left.
Defined.

Lemma misspelt_name_blocks_refresh_witness :
  lambda_env (main boto3_client_all_well default_args world_at_rest).2
    = lambda_env world_at_rest /\
  loaded (main boto3_client_all_well default_args world_at_rest).2
    = loaded world_at_rest /\
  ((forall here, raises boto3_client_all_well here = false) ->
   (main boto3_client_all_well default_args world_at_rest).1
     = Raised (AttributeError "update_function_configureation")).
Proof.
  apply (misspelt_name_blocks_refresh boto3_client_all_well default_args world_at_rest).
  intros Hin. apply elem_of_cons in Hin as [Hin|Hin]; [discriminate|].
  by apply elem_of_nil in Hin.
Defined.
